(** * RBAC-aware ClusterSet cache, permission-aware watch and ClusterSet mapper

    A shallow embedding of
    - [pkg/cache]: [OptimizedClusterSetCache] / [ControllerRuntimeClusterSetCache]
      (permission index, filtered [List], rebuild, watcher fan-out),
    - [pkg/cache]: [ModernCacheWatcher] (permission-aware watch),
    - [pkg/helpers]: [ClusterSetResourceMapper].

    Go's [sets.String] / [sets.Set[string]] are maps, hence reference values:
    they live in a heap of set objects and are named by locations, so that
    sharing of one set object between several owners is visible. *)

From stdpp Require Import base option list strings gmap sets fin_sets fin_maps relations sorting.

Local Open Scope string_scope.

(** ** Errors and results *)

(** The errors a lister or client read can report: the Kubernetes
    not-found status, or any other (transient) failure. *)
Inductive error :=
  | NotFound (name : string)
  | Failure (msg : string).

Inductive result (A : Type) :=
  | Ok (a : A)
  | Err (e : error).
Arguments Ok {A} a.
Arguments Err {A} e.

(** [errors.IsNotFound] *)
Definition errors_IsNotFound (e : error) : bool :=
  match e with NotFound _ => true | Failure _ => false end.

(** ** Heap of string sets *)

Definition loc := positive.

Abbreviation Heap := (gmap loc (gset string)).

(** Contents of the set object at [l]; a nil set reads as empty. *)
Definition deref (h : Heap) (l : loc) : gset string := default ∅ (h !! l).

(** [sets.NewString()] / [sets.New[string]()]: a new, empty set object. *)
Definition sets_New (h : Heap) : loc * Heap :=
  let l := fresh (dom h) in (l, <[l := ∅]> h).

(** [sets.NewString(items...)]: a new set object holding [items]. *)
Definition sets_NewFrom (items : gset string) (h : Heap) : loc * Heap :=
  let l := fresh (dom h) in (l, <[l := items]> h).

(** [s1.Union(s2)]: always a new set object; [s1] and [s2] are only read. *)
Definition sets_Union (l1 l2 : loc) (h : Heap) : loc * Heap :=
  let l := fresh (dom h) in (l, <[l := deref h l1 ∪ deref h l2]> h).

(** [s.Insert(x)]: in place. *)
Definition sets_Insert (l : loc) (x : string) (h : Heap) : Heap :=
  <[l := deref h l ∪ {[x]}]> h.

(** [s.Delete(x)]: in place. *)
Definition sets_Delete (l : loc) (x : string) (h : Heap) : Heap :=
  <[l := deref h l ∖ {[x]}]> h.

(** [s.Has(x)] *)
Definition sets_Has (l : loc) (x : string) (h : Heap) : bool :=
  bool_decide (x ∈ deref h l).

(** [s.Len()] *)
Definition sets_Len (l : loc) (h : Heap) : nat := size (deref h l).

(** The order of Go strings, as [sort.Strings] uses it. *)
Definition string_le (a b : string) : Prop := String.leb a b = true.

Global Instance string_le_dec : RelDecision string_le.
Proof. intros a b. unfold string_le. apply _. Defined.

(** [s.List()]: the elements in sorted order. *)
Definition sets_List (s : gset string) : list string :=
  merge_sort string_le (elements s).

(** [s.HasAny(items...)] on a set value. *)
Definition sets_HasAny (s : gset string) (items : list string) : bool :=
  existsb (λ g, bool_decide (g ∈ s)) items.

(** ** Kubernetes objects *)

Record ManagedClusterSet := {
  Name : string;
  Labels : gmap string string;
  ResourceVersion : string;
}.

(** [&ManagedClusterSet{ObjectMeta: metav1.ObjectMeta{Name: name}}] *)
Definition placeholder (name : string) : ManagedClusterSet :=
  {| Name := name; Labels := ∅; ResourceVersion := "" |}.

Record PolicyRule := {
  Verbs : list string;
  APIGroups : list string;
  Resources : list string;
  ResourceNames : list string;
}.

Record ClusterRole := {
  RoleName : string;
  Rules : list PolicyRule;
}.

Record Subject := {
  Kind : string;
  SubjectName : string;
}.

Record ClusterRoleBinding := {
  BindingName : string;
  RoleRefName : string;
  Subjects : list Subject;
}.

(** [user.Info] *)
Record UserInfo := {
  GetName : string;
  GetGroups : list string;
}.

(** [labels.Selector]: only [Matches] is used. *)
Definition Selector := gmap string string → bool.

Definition labels_Everything : Selector := λ _, true.

(** A lister (client-go) or a typed client read (controller-runtime). *)
Record Lister (A : Type) := {
  lister_Get : string → result A;
  lister_List : result (list A);
}.
Arguments lister_Get {A} _ _.
Arguments lister_List {A} _.

(** ** Permission cache *)

(** [PermissionCache] / [RBACPermissionIndex]: subject name to the set
    object holding the resource names that subject may see. *)
Record PermissionCache := {
  userPermissions : gmap string loc;
  groupPermissions : gmap string loc;
}.

(** [CacheWatcher]: what the cache needs from a watcher. *)
Class CacheWatcher (W : Type) :=
  GroupMembershipChanged : W → gset string → gset string → gset string → W.

(** [OptimizedClusterSetCache] and [ControllerRuntimeClusterSetCache] carry
    the same data; the listers stand for the informer-backed listers of the
    former and the controller-runtime client of the latter. *)
Record ClusterSetCache (W : Type) := {
  clusterSetLister : Lister ManagedClusterSet;
  clusterRoleLister : Lister ClusterRole;
  clusterRoleBindingLister : Lister ClusterRoleBinding;
  permissionCache : PermissionCache;
  getResourceNamesFromClusterRole : ClusterRole → string → string → gset string * bool;
  watchers : list W;
}.
Arguments clusterSetLister {W} _.
Arguments clusterRoleLister {W} _.
Arguments clusterRoleBindingLister {W} _.
Arguments permissionCache {W} _.
Arguments getResourceNamesFromClusterRole {W} _ _ _ _.
Arguments watchers {W} _.

Definition set_permissionCache {W} (pc : PermissionCache) (c : ClusterSetCache W)
  : ClusterSetCache W :=
  {| clusterSetLister := clusterSetLister c;
     clusterRoleLister := clusterRoleLister c;
     clusterRoleBindingLister := clusterRoleBindingLister c;
     permissionCache := pc;
     getResourceNamesFromClusterRole := getResourceNamesFromClusterRole c;
     watchers := watchers c |}.

Definition set_watchers {W} (ws : list W) (c : ClusterSetCache W) : ClusterSetCache W :=
  {| clusterSetLister := clusterSetLister c;
     clusterRoleLister := clusterRoleLister c;
     clusterRoleBindingLister := clusterRoleBindingLister c;
     permissionCache := permissionCache c;
     getResourceNamesFromClusterRole := getResourceNamesFromClusterRole c;
     watchers := ws |}.

(** The names stored in the index for one subject; a missing key is the
    empty set. *)
Definition permitted (h : Heap) (m : gmap string loc) (subject : string) : gset string :=
  from_option (deref h) ∅ (m !! subject).

(** The group loop of [getAccessibleResourceNames]. *)
Fixpoint unionGroups (pc : PermissionCache) (groups : list string)
    (accessibleNames : loc) (h : Heap) : loc * Heap :=
  match groups with
  | [] => (accessibleNames, h)
  | group :: rest =>
      match groupPermissions pc !! group with
      | Some groupPerms =>
          let '(acc, h1) := sets_Union accessibleNames groupPerms h in
          unionGroups pc rest acc h1
      | None => unionGroups pc rest accessibleNames h
      end
  end.

(** [getAccessibleResourceNames] *)
Definition getAccessibleResourceNames (pc : PermissionCache) (userInfo : UserInfo)
    (h : Heap) : loc * Heap :=
  let '(accessibleNames, h0) := sets_New h in
  let '(accessibleNames, h1) :=
    match userPermissions pc !! GetName userInfo with
    | Some userPerms => sets_Union accessibleNames userPerms h0
    | None => (accessibleNames, h0)
    end in
  unionGroups pc (GetGroups userInfo) accessibleNames h1.

(** [GetAccessibleResourcesForUser]: [resources.Union(sets.NewString())],
    or a new empty set for a user without an entry. *)
Definition GetAccessibleResourcesForUser (pc : PermissionCache) (userName : string)
    (h : Heap) : loc * Heap :=
  match userPermissions pc !! userName with
  | Some resources =>
      let '(empty, h1) := sets_New h in sets_Union resources empty h1
  | None => sets_New h
  end.

(** [GetAccessibleResourcesForGroup] *)
Definition GetAccessibleResourcesForGroup (pc : PermissionCache) (groupName : string)
    (h : Heap) : loc * Heap :=
  match groupPermissions pc !! groupName with
  | Some resources =>
      let '(empty, h1) := sets_New h in sets_Union resources empty h1
  | None => sets_New h
  end.

(** The loop of [List] over the accessible names. *)
Fixpoint listLoop (lister : Lister ManagedClusterSet) (selector : Selector)
    (names : list string) (items : list ManagedClusterSet)
  : result (list ManagedClusterSet) :=
  match names with
  | [] => Ok items
  | name :: rest =>
      match lister_Get lister name with
      | Err e =>
          if errors_IsNotFound e then listLoop lister selector rest items
          else Err e
      | Ok clusterSet =>
          if negb (selector (Labels clusterSet))
          then listLoop lister selector rest items
          else listLoop lister selector rest (items ++ [clusterSet])
      end
  end.

(** [List]: the map iteration order of Go is unspecified; the model walks
    the accessible names in the order of [elements]. *)
Definition List {W} (c : ClusterSetCache W) (userInfo : UserInfo) (selector : Selector)
    (h : Heap) : result (list ManagedClusterSet) * Heap :=
  let '(accessibleNames, h1) := getAccessibleResourceNames (permissionCache c) userInfo h in
  (listLoop (clusterSetLister c) selector (elements (deref h1 accessibleNames)) [], h1).

(** [Get] *)
Definition Get {W} (c : ClusterSetCache W) (name : string) : result ManagedClusterSet :=
  lister_Get (clusterSetLister c) name.

(** [ConvertResource] *)
Definition ConvertResource {W} (c : ClusterSetCache W) (name : string) : ManagedClusterSet :=
  match lister_Get (clusterSetLister c) name with
  | Ok clusterSet => clusterSet
  | Err _ => placeholder name
  end.

(** ** Rebuilding the permission index *)

(** One arm of the subject switch of [processClusterRoleBinding]:
    [if m[name] == nil { m[name] = sets.NewString() }; m[name] = m[name].Union(resourceNames)]. *)
Definition grant (m : gmap string loc) (name : string) (resourceNames : loc) (h : Heap)
  : gmap string loc * Heap :=
  let '(cur, m1, h1) :=
    match m !! name with
    | Some l => (l, m, h)
    | None => let '(l, h1) := sets_New h in (l, <[name := l]> m, h1)
    end in
  let '(u, h2) := sets_Union cur resourceNames h1 in
  (<[name := u]> m1, h2).

(** The subject loop of [processClusterRoleBinding]; subjects of another
    kind than User or Group are skipped. *)
Fixpoint processSubjects (subjects : list Subject) (resourceNames : loc)
    (pc : PermissionCache) (h : Heap) : PermissionCache * Heap :=
  match subjects with
  | [] => (pc, h)
  | subject :: rest =>
      if String.eqb (Kind subject) "User" then
        let '(m, h1) := grant (userPermissions pc) (SubjectName subject) resourceNames h in
        processSubjects rest resourceNames
          {| userPermissions := m; groupPermissions := groupPermissions pc |} h1
      else if String.eqb (Kind subject) "Group" then
        let '(m, h1) := grant (groupPermissions pc) (SubjectName subject) resourceNames h in
        processSubjects rest resourceNames
          {| userPermissions := userPermissions pc; groupPermissions := m |} h1
      else processSubjects rest resourceNames pc h
  end.

(** [processClusterRoleBinding]: the error is what the controller-runtime
    variant returns; the client-go variant returns at the same places
    without a value. *)
Definition processClusterRoleBinding {W} (c : ClusterSetCache W)
    (binding : ClusterRoleBinding) (h : Heap) : option error * ClusterSetCache W * Heap :=
  match lister_Get (clusterRoleLister c) (RoleRefName binding) with
  | Err e => (Some e, c, h)
  | Ok clusterRole =>
      let '(names, hasAll) :=
        getResourceNamesFromClusterRole c clusterRole
          "cluster.open-cluster-management.io" "managedclustersets" in
      let '(resourceNames, h1) := sets_NewFrom names h in
      let resolved :=
        if hasAll then
          match lister_List (clusterSetLister c) with
          | Err e => Err e
          | Ok allClusterSets =>
              let '(all, h2) := sets_New h1 in
              Ok (all, foldl (λ hh cs, sets_Insert all (Name cs) hh) h2 allClusterSets)
          end
        else Ok (resourceNames, h1) in
      match resolved with
      | Err e => (Some e, c, h1)
      | Ok (resourceNames, h2) =>
          if Nat.eqb (sets_Len resourceNames h2) 0 then (None, c, h2)
          else
            let '(pc, h3) :=
              processSubjects (Subjects binding) resourceNames (permissionCache c) h2 in
            (None, set_permissionCache pc c, h3)
      end
  end.

(** The binding loop shared by both rebuilds; a failing binding is skipped. *)
Definition processBindings {W} (bindings : list ClusterRoleBinding)
    (c : ClusterSetCache W) (h : Heap) : ClusterSetCache W * Heap :=
  foldl (λ '(c, h) binding,
           let '(_, c1, h1) := processClusterRoleBinding c binding h in (c1, h1))
        (c, h) bindings.

Definition emptyPermissionCache : PermissionCache :=
  {| userPermissions := ∅; groupPermissions := ∅ |}.

(** [OptimizedClusterSetCache.rebuildPermissionCache] *)
Definition rebuildPermissionCache {W} (c : ClusterSetCache W) (h : Heap)
  : ClusterSetCache W * Heap :=
  let c := set_permissionCache emptyPermissionCache c in
  match lister_List (clusterRoleBindingLister c) with
  | Err _ => (c, h)
  | Ok roleBindings => processBindings roleBindings c h
  end.

(** [ControllerRuntimeClusterSetCache.rebuildPermissionIndex] *)
Definition rebuildPermissionIndex {W} (c : ClusterSetCache W) (h : Heap)
  : option error * ClusterSetCache W * Heap :=
  let c := set_permissionCache emptyPermissionCache c in
  match lister_List (clusterRoleBindingLister c) with
  | Err e => (Some e, c, h)
  | Ok bindingList => let '(c1, h1) := processBindings bindingList c h in (None, c1, h1)
  end.

(** ** Fan-out to the watchers *)

(** One [for subject, resources := range m] loop of [notifyWatchers]:
    collects the subject names and unions the resource names. *)
Definition collect (h : Heap) (m : gmap string loc) (names : gset string)
  : gset string * gset string :=
  map_fold (λ subject resources '(subjects, names),
              ({[subject]} ∪ subjects, names ∪ deref h resources))
           (∅, names) m.

(** The [(names, users, groups)] triple [notifyWatchers] builds for a watcher. *)
Definition notification (pc : PermissionCache) (h : Heap)
  : gset string * gset string * gset string :=
  let '(users, names) := collect h (userPermissions pc) ∅ in
  let '(groups, names) := collect h (groupPermissions pc) names in
  (names, users, groups).

(** [notifyWatchers] *)
Definition notifyWatchers {W} `{!CacheWatcher W} (c : ClusterSetCache W) (h : Heap)
  : ClusterSetCache W :=
  set_watchers
    (map (λ watcher,
            let '(names, users, groups) := notification (permissionCache c) h in
            GroupMembershipChanged watcher names users groups)
         (watchers c)) c.

(** [AddWatcher] *)
Definition AddWatcher {W} (watcher : W) (c : ClusterSetCache W) : ClusterSetCache W :=
  set_watchers (watchers c ++ [watcher]) c.

(** The informer event handlers. All but [onClusterRoleBindingAdd] rebuild
    the index and then notify. *)
Definition onClusterRoleAdd {W} `{!CacheWatcher W} (c : ClusterSetCache W) (h : Heap)
  : ClusterSetCache W * Heap :=
  let '(c1, h1) := rebuildPermissionCache c h in (notifyWatchers c1 h1, h1).

Definition onClusterRoleUpdate {W} `{!CacheWatcher W} (c : ClusterSetCache W) (h : Heap)
  : ClusterSetCache W * Heap :=
  let '(c1, h1) := rebuildPermissionCache c h in (notifyWatchers c1 h1, h1).

Definition onClusterRoleDelete {W} `{!CacheWatcher W} (c : ClusterSetCache W) (h : Heap)
  : ClusterSetCache W * Heap :=
  let '(c1, h1) := rebuildPermissionCache c h in (notifyWatchers c1 h1, h1).


Definition onClusterRoleBindingUpdate {W} `{!CacheWatcher W} (c : ClusterSetCache W) (h : Heap)
  : ClusterSetCache W * Heap :=
  let '(c1, h1) := rebuildPermissionCache c h in (notifyWatchers c1 h1, h1).


(** ** Permission-aware watch *)

(** [metav1.Status], as [makeModernErrorEvent] fills it. *)
Record Status := {
  StatusStatus : string;
  StatusMessage : string;
  StatusCode : nat;
}.

(** [runtime.Object]: the objects that travel through a watch. *)
Inductive Object :=
  | ObjClusterSet (cs : ManagedClusterSet)
  | ObjStatus (st : Status).

(** [meta.Accessor]: fails on objects without object metadata. *)
Definition meta_Accessor (o : Object) : option ManagedClusterSet :=
  match o with
  | ObjClusterSet cs => Some cs
  | ObjStatus _ => None
  end.

(** [watch.EventType] *)
Inductive EventType := Added | Modified | Deleted | Error.

Global Instance EventType_eq_dec : EqDecision EventType.
Proof. solve_decision. Defined.

(** [watch.Event] *)
Record Event := {
  Type_ : EventType;
  Object_ : Object;
}.

(** [WatchableCache]: what a watcher reads from the cache that owns it.
    [RemoveWatcher] acts on the cache; a watcher records that it called it. *)
Record WatchableCache := {
  cache_ListObjects : UserInfo → result (list Object);
  cache_Get : string → result Object;
  cache_ConvertResource : string → Object;
}.

(** The cache as its watchers see it. *)
Definition asWatchableCache {W} (c : ClusterSetCache W) (h : Heap) : WatchableCache :=
  {| cache_ListObjects userInfo :=
       match (List c userInfo labels_Everything h).1 with
       | Ok items => Ok (ObjClusterSet <$> items)
       | Err e => Err e
       end;
     cache_Get name :=
       match Get c name with
       | Ok clusterSet => Ok (ObjClusterSet clusterSet)
       | Err e => Err e
       end;
     cache_ConvertResource name := ObjClusterSet (ConvertResource c name) |}.

(** Where a [run] goroutine stands: still in [emitInitialResources] with
    some resources pending, or in the main select loop. *)
Inductive RunPhase :=
  | EmitInitial (pending : list Object)
  | MainLoop.

(** [ModernCacheWatcher].
    - [ctxDone]: [w.ctx] is cancelled;
    - [internalEvents]: the content of the buffered channel, oldest first,
      whose capacity is [eventBufferSize];
    - [resultChan]: the events handed to the consumer so far, and
      [resultChanCloses] the number of [close(w.resultChan)] executed;
    - [errors]: the content of the error channel (capacity 1);
    - [runs]: the live [run] goroutines;
    - [removeWatcherCalls]: the number of [w.authCache.RemoveWatcher(w)] executed. *)
Record ModernCacheWatcher := {
  user : UserInfo;
  authCache : WatchableCache;
  knownResources : gmap string string;
  ctxDone : bool;
  internalEvents : list Event;
  resultChan : list Event;
  resultChanCloses : nat;
  errors : list string;
  eventBufferSize : nat;
  eventTimeout : nat;
  started : bool;
  initialResources : list Object;
  runs : list RunPhase;
  removeWatcherCalls : nat;
}.

Definition defaultEventBufferSize : nat := 1000.
Definition defaultEventTimeout : nat := 30.

Definition set_knownResources (k : gmap string string) (w : ModernCacheWatcher) :=
  {| user := user w; authCache := authCache w; knownResources := k;
     ctxDone := ctxDone w; internalEvents := internalEvents w;
     resultChan := resultChan w; resultChanCloses := resultChanCloses w;
     errors := errors w; eventBufferSize := eventBufferSize w;
     eventTimeout := eventTimeout w; started := started w;
     initialResources := initialResources w; runs := runs w;
     removeWatcherCalls := removeWatcherCalls w |}.

Definition set_internalEvents (q : list Event) (w : ModernCacheWatcher) :=
  {| user := user w; authCache := authCache w; knownResources := knownResources w;
     ctxDone := ctxDone w; internalEvents := q;
     resultChan := resultChan w; resultChanCloses := resultChanCloses w;
     errors := errors w; eventBufferSize := eventBufferSize w;
     eventTimeout := eventTimeout w; started := started w;
     initialResources := initialResources w; runs := runs w;
     removeWatcherCalls := removeWatcherCalls w |}.

Definition set_resultChan (out : list Event) (w : ModernCacheWatcher) :=
  {| user := user w; authCache := authCache w; knownResources := knownResources w;
     ctxDone := ctxDone w; internalEvents := internalEvents w;
     resultChan := out; resultChanCloses := resultChanCloses w;
     errors := errors w; eventBufferSize := eventBufferSize w;
     eventTimeout := eventTimeout w; started := started w;
     initialResources := initialResources w; runs := runs w;
     removeWatcherCalls := removeWatcherCalls w |}.

Definition set_errors (es : list string) (w : ModernCacheWatcher) :=
  {| user := user w; authCache := authCache w; knownResources := knownResources w;
     ctxDone := ctxDone w; internalEvents := internalEvents w;
     resultChan := resultChan w; resultChanCloses := resultChanCloses w;
     errors := es; eventBufferSize := eventBufferSize w;
     eventTimeout := eventTimeout w; started := started w;
     initialResources := initialResources w; runs := runs w;
     removeWatcherCalls := removeWatcherCalls w |}.

Definition set_runs (rs : list RunPhase) (w : ModernCacheWatcher) :=
  {| user := user w; authCache := authCache w; knownResources := knownResources w;
     ctxDone := ctxDone w; internalEvents := internalEvents w;
     resultChan := resultChan w; resultChanCloses := resultChanCloses w;
     errors := errors w; eventBufferSize := eventBufferSize w;
     eventTimeout := eventTimeout w; started := started w;
     initialResources := initialResources w; runs := rs;
     removeWatcherCalls := removeWatcherCalls w |}.

(** [w.authCache.RemoveWatcher(w)] *)
Definition callRemoveWatcher (w : ModernCacheWatcher) :=
  {| user := user w; authCache := authCache w; knownResources := knownResources w;
     ctxDone := ctxDone w; internalEvents := internalEvents w;
     resultChan := resultChan w; resultChanCloses := resultChanCloses w;
     errors := errors w; eventBufferSize := eventBufferSize w;
     eventTimeout := eventTimeout w; started := started w;
     initialResources := initialResources w; runs := runs w;
     removeWatcherCalls := S (removeWatcherCalls w) |}.

(** [close(w.resultChan)] *)
Definition closeResultChan (w : ModernCacheWatcher) :=
  {| user := user w; authCache := authCache w; knownResources := knownResources w;
     ctxDone := ctxDone w; internalEvents := internalEvents w;
     resultChan := resultChan w; resultChanCloses := S (resultChanCloses w);
     errors := errors w; eventBufferSize := eventBufferSize w;
     eventTimeout := eventTimeout w; started := started w;
     initialResources := initialResources w; runs := runs w;
     removeWatcherCalls := removeWatcherCalls w |}.

(** The accesses of [initializeResources] to the listed objects. *)
Fixpoint storeKnown (objs : list Object) (known : gmap string string) : gmap string string :=
  match objs with
  | [] => known
  | object :: rest =>
      match meta_Accessor object with
      | None => storeKnown rest known
      | Some accessor =>
          storeKnown rest (<[Name accessor := ResourceVersion accessor]> known)
      end
  end.

(** [NewModernCacheWatcher], with [initializeResources] inlined. *)
Definition NewModernCacheWatcher (user : UserInfo) (authCache : WatchableCache)
    (includeAllExistingResources : bool) : ModernCacheWatcher :=
  let w0 known initial :=
    {| user := user; authCache := authCache; knownResources := known;
       ctxDone := false; internalEvents := []; resultChan := [];
       resultChanCloses := 0; errors := [];
       eventBufferSize := defaultEventBufferSize;
       eventTimeout := defaultEventTimeout; started := false;
       initialResources := initial; runs := []; removeWatcherCalls := 0 |} in
  match cache_ListObjects authCache user with
  | Err _ => w0 ∅ []
  | Ok objs =>
      w0 (storeKnown objs ∅) (if includeAllExistingResources then objs else [])
  end.

(** The three-way select around a send on [w.internalEvents]. The send is
    ready while the buffer has room. When the context is already cancelled
    Go may take either ready case; the model takes [ctx.Done()]. With a full
    buffer and a live context the sender waits for [eventTimeout]. *)
Inductive SendOutcome := Sent | TimedOut | Cancelled.

Definition selectSend (w : ModernCacheWatcher) : SendOutcome :=
  if ctxDone w then Cancelled
  else if decide (length (internalEvents w) < eventBufferSize w) then Sent
  else TimedOut.

(** [handleEventTimeout]: unregister, and leave the error for [run] unless
    the error channel is full. *)
Definition handleEventTimeout (w : ModernCacheWatcher) : ModernCacheWatcher :=
  let w := callRemoveWatcher w in
  match errors w with
  | [] => set_errors ["event notification timeout"] w
  | _ :: _ => w
  end.

(** The body of the [Range] of [handleResourceDeletions], over the entries
    of the known-resources map. *)
Fixpoint deletionsLoop (accessibleNames : gset string) (entries : list (string * string))
    (w : ModernCacheWatcher) : ModernCacheWatcher :=
  match entries with
  | [] => w
  | (name, _) :: rest =>
      if bool_decide (name ∈ accessibleNames) then deletionsLoop accessibleNames rest w
      else
        let w := set_knownResources (delete name (knownResources w)) w in
        let deleteEvent :=
          {| Type_ := Deleted; Object_ := cache_ConvertResource (authCache w) name |} in
        match selectSend w with
        | Sent =>
            deletionsLoop accessibleNames rest
              (set_internalEvents (internalEvents w ++ [deleteEvent]) w)
        | TimedOut => handleEventTimeout w
        | Cancelled => w
        end
  end.

(** [handleResourceDeletions] *)
Definition handleResourceDeletions (accessibleNames : gset string)
    (w : ModernCacheWatcher) : ModernCacheWatcher :=
  deletionsLoop accessibleNames (map_to_list (knownResources w)) w.

(** The loop of [handleResourceUpdates] over [accessibleNames.List()]. *)
Fixpoint updatesLoop (names : list string) (w : ModernCacheWatcher) : ModernCacheWatcher :=
  match names with
  | [] => w
  | name :: rest =>
      match cache_Get (authCache w) name with
      | Err _ => updatesLoop rest w
      | Ok object =>
          match meta_Accessor object with
          | None => updatesLoop rest w
          | Some accessor =>
              let currentResourceVersion := ResourceVersion accessor in
              let last := knownResources w !! name in
              let eventType := match last with Some _ => Modified | None => Added end in
              if bool_decide (last = Some currentResourceVersion)
              then updatesLoop rest w
              else
                let w := set_knownResources
                           (<[name := currentResourceVersion]> (knownResources w)) w in
                let event := {| Type_ := eventType; Object_ := object |} in
                match selectSend w with
                | Sent => updatesLoop rest (set_internalEvents (internalEvents w ++ [event]) w)
                | TimedOut => handleEventTimeout w
                | Cancelled => w
                end
          end
      end
  end.

(** [handleResourceUpdates] *)
Definition handleResourceUpdates (accessibleNames : gset string)
    (w : ModernCacheWatcher) : ModernCacheWatcher :=
  updatesLoop (sets_List accessibleNames) w.

(** [ModernCacheWatcher.GroupMembershipChanged] *)
Definition watcher_GroupMembershipChanged (w : ModernCacheWatcher)
    (names users groups : gset string) : ModernCacheWatcher :=
  let hasAccess :=
    bool_decide (GetName (user w) ∈ users) || sets_HasAny groups (GetGroups (user w)) in
  if negb hasAccess then w
  else handleResourceUpdates names (handleResourceDeletions names w).


(** [Start]: a second call on a started watch does nothing; otherwise a
    [run] goroutine is spawned, which begins with [emitInitialResources]. *)
Definition Start (w : ModernCacheWatcher) : ModernCacheWatcher :=
  if started w then w
  else
    {| user := user w; authCache := authCache w; knownResources := knownResources w;
       ctxDone := ctxDone w; internalEvents := internalEvents w;
       resultChan := resultChan w; resultChanCloses := resultChanCloses w;
       errors := errors w; eventBufferSize := eventBufferSize w;
       eventTimeout := eventTimeout w; started := true;
       initialResources := initialResources w;
       runs := runs w ++ [EmitInitial (initialResources w)];
       removeWatcherCalls := removeWatcherCalls w |}.

(** [Stop]: on a started watch, cancel the context and clear [started]. *)
Definition Stop (w : ModernCacheWatcher) : ModernCacheWatcher :=
  if negb (started w) then w
  else
    {| user := user w; authCache := authCache w; knownResources := knownResources w;
       ctxDone := true; internalEvents := internalEvents w;
       resultChan := resultChan w; resultChanCloses := resultChanCloses w;
       errors := errors w; eventBufferSize := eventBufferSize w;
       eventTimeout := eventTimeout w; started := false;
       initialResources := initialResources w; runs := runs w;
       removeWatcherCalls := removeWatcherCalls w |}.

(** [makeModernErrorEvent] *)
Definition makeModernErrorEvent (err : string) : Event :=
  {| Type_ := Error;
     Object_ := ObjStatus {| StatusStatus := "Failure"; StatusMessage := err;
                             StatusCode := 500 |} |}.

(** [defaultEmit]: the event reaches the consumer of [ResultChan], or the
    send is abandoned because the context is cancelled. *)
Inductive defaultEmit (event : Event) : ModernCacheWatcher → ModernCacheWatcher → Prop :=
  | emit_received w :
      defaultEmit event w (set_resultChan (resultChan w ++ [event]) w)
  | emit_abandoned w :
      ctxDone w = true → defaultEmit event w w.

(** The deferred calls of [run], executed when goroutine [i] returns:
    [RemoveWatcher], then [close(w.resultChan)]. *)
Definition runReturn (i : nat) (w : ModernCacheWatcher) : ModernCacheWatcher :=
  set_runs (delete i (runs w)) (closeResultChan (callRemoveWatcher w)).

(** One step of one [run] goroutine. *)
Inductive run_step : ModernCacheWatcher → ModernCacheWatcher → Prop :=
  | run_initial_error w i resource pending err errs w' :
      runs w !! i = Some (EmitInitial (resource :: pending)) →
      errors w = err :: errs →
      defaultEmit (makeModernErrorEvent err) (set_errors errs w) w' →
      run_step w (set_runs (<[i := MainLoop]> (runs w')) w')
  | run_initial_done w i resource pending :
      runs w !! i = Some (EmitInitial (resource :: pending)) →
      ctxDone w = true →
      run_step w (set_runs (<[i := MainLoop]> (runs w)) w)
  | run_initial_emit w i resource pending w' :
      runs w !! i = Some (EmitInitial (resource :: pending)) →
      errors w = [] →
      ctxDone w = false →
      defaultEmit {| Type_ := Added; Object_ := resource |} w w' →
      run_step w (set_runs (<[i := EmitInitial pending]> (runs w')) w')
  | run_initial_end w i :
      runs w !! i = Some (EmitInitial []) →
      run_step w (set_runs (<[i := MainLoop]> (runs w)) w)
  | run_loop_error w i err errs w' :
      runs w !! i = Some MainLoop →
      errors w = err :: errs →
      defaultEmit (makeModernErrorEvent err) (set_errors errs w) w' →
      run_step w (runReturn i w')
  | run_loop_event w i event queue w' :
      runs w !! i = Some MainLoop →
      internalEvents w = event :: queue →
      defaultEmit event (set_internalEvents queue w) w' →
      run_step w w'
  | run_loop_done w i :
      runs w !! i = Some MainLoop →
      ctxDone w = true →
      run_step w (runReturn i w).

(** [GetKnownResourceCount] *)
Definition GetKnownResourceCount (w : ModernCacheWatcher) : nat :=
  size (knownResources w).

(** [IsStarted] *)
Definition IsStarted (w : ModernCacheWatcher) : bool := started w.



(** ** ClusterSet resource mapper *)

(** [ClusterSetResourceMapper]: cluster-set name to the set object holding
    its member resource names. *)
Record ClusterSetResourceMapper := {
  resourceType : string;
  setToResources : gmap string loc;
}.

(** [NewClusterSetResourceMapper] *)
Definition NewClusterSetResourceMapper (resourceType : string) : ClusterSetResourceMapper :=
  {| resourceType := resourceType; setToResources := ∅ |}.

(** [UpdateClusterSetResources]: the caller's set object itself is stored. *)
Definition UpdateClusterSetResources (clusterSetName : string) (resources : loc)
    (m : ClusterSetResourceMapper) (h : Heap) : ClusterSetResourceMapper :=
  if String.eqb clusterSetName "" then m
  else if Nat.eqb (sets_Len resources h) 0 then
    {| resourceType := resourceType m;
       setToResources := delete clusterSetName (setToResources m) |}
  else
    {| resourceType := resourceType m;
       setToResources := <[clusterSetName := resources]> (setToResources m) |}.

(** [AddResourceToClusterSet] *)
Definition AddResourceToClusterSet (resourceName clusterSetName : string)
    (m : ClusterSetResourceMapper) (h : Heap) : ClusterSetResourceMapper * Heap :=
  if String.eqb resourceName "" || String.eqb clusterSetName "" then (m, h)
  else
    let '(l, s, h1) :=
      match setToResources m !! clusterSetName with
      | Some l => (l, setToResources m, h)
      | None =>
          let '(l, h1) := sets_New h in (l, <[clusterSetName := l]> (setToResources m), h1)
      end in
    ({| resourceType := resourceType m; setToResources := s |},
     sets_Insert l resourceName h1).

(** The body of a [for clusterSetName, resources := range m.setToResources]
    that removes [resourceName] from every set but the one named [skip]
    (none is skipped when [skip] is [None]). An entry deleted before the
    iteration reaches it is not visited. *)
Fixpoint removeLoop (resourceName : string) (skip : option string) (keys : list string)
    (s : gmap string loc) (h : Heap) : gmap string loc * Heap :=
  match keys with
  | [] => (s, h)
  | clusterSetName :: rest =>
      match s !! clusterSetName with
      | None => removeLoop resourceName skip rest s h
      | Some resources =>
          if bool_decide (skip = Some clusterSetName)
          then removeLoop resourceName skip rest s h
          else if sets_Has resources resourceName h then
            let h1 := sets_Delete resources resourceName h in
            if Nat.eqb (sets_Len resources h1) 0
            then removeLoop resourceName skip rest (delete clusterSetName s) h1
            else removeLoop resourceName skip rest s h1
          else removeLoop resourceName skip rest s h
      end
  end.

(** [RemoveResourceFromAllClusterSets] *)
Definition RemoveResourceFromAllClusterSets (resourceName : string)
    (m : ClusterSetResourceMapper) (h : Heap) : ClusterSetResourceMapper * Heap :=
  if String.eqb resourceName "" then (m, h)
  else
    let '(s, h1) :=
      removeLoop resourceName None (map_to_list (setToResources m)).*1
        (setToResources m) h in
    ({| resourceType := resourceType m; setToResources := s |}, h1).

(** [MoveResourceToClusterSet], the iteration order over the map given by
    [keys]. *)
Definition moveResource (keys : list string) (resourceName newClusterSetName : string)
    (m : ClusterSetResourceMapper) (h : Heap) : ClusterSetResourceMapper * Heap :=
  if String.eqb resourceName "" || String.eqb newClusterSetName "" then (m, h)
  else
    let '(s, h1) :=
      removeLoop resourceName (Some newClusterSetName) keys (setToResources m) h in
    let '(l, s1, h2) :=
      match s !! newClusterSetName with
      | Some l => (l, s, h1)
      | None => let '(l, h2) := sets_New h1 in (l, <[newClusterSetName := l]> s, h2)
      end in
    ({| resourceType := resourceType m; setToResources := s1 |},
     sets_Insert l resourceName h2).

(** [MoveResourceToClusterSet]: Go leaves the iteration order of a map
    unspecified; the model takes the order of [map_to_list]. *)
Definition MoveResourceToClusterSet (resourceName newClusterSetName : string)
    (m : ClusterSetResourceMapper) (h : Heap) : ClusterSetResourceMapper * Heap :=
  moveResource (map_to_list (setToResources m)).*1 resourceName newClusterSetName m h.

(** [GetResourcesInClusterSet]: a clone of the stored set, or a new empty set. *)
Definition GetResourcesInClusterSet (clusterSetName : string)
    (m : ClusterSetResourceMapper) (h : Heap) : loc * Heap :=
  match setToResources m !! clusterSetName with
  | Some resources => sets_NewFrom (deref h resources) h
  | None => sets_New h
  end.

(** [GetClusterSetForResource]: the first set, in iteration order, that
    holds the resource; the empty string when there is none. *)
Definition GetClusterSetForResource (resourceName : string)
    (m : ClusterSetResourceMapper) (h : Heap) : string :=
  match list_find (λ '(_, resources), resourceName ∈ deref h resources)
                  (map_to_list (setToResources m)) with
  | Some (_, (clusterSetName, _)) => clusterSetName
  | None => ""
  end.

(** [s.Clone()]: a new set object with the same elements. *)
Definition sets_Clone (l : loc) (h : Heap) : loc * Heap :=
  sets_NewFrom (deref h l) h.

(** The loop of [GetAllMappings]: [result[clusterSetName] = resources.Clone()]. *)
Fixpoint cloneLoop (entries : list (string * loc)) (result : gmap string loc) (h : Heap)
  : gmap string loc * Heap :=
  match entries with
  | [] => (result, h)
  | (clusterSetName, resources) :: rest =>
      let '(clone, h1) := sets_Clone resources h in
      cloneLoop rest (<[clusterSetName := clone]> result) h1
  end.

(** [GetAllMappings]: the returned Go map; the entries are walked in the
    order of [map_to_list]. *)
Definition GetAllMappings (m : ClusterSetResourceMapper) (h : Heap)
  : gmap string loc * Heap :=
  cloneLoop (map_to_list (setToResources m)) ∅ h.

(** [RemoveClusterSet] *)
Definition RemoveClusterSet (clusterSetName : string) (m : ClusterSetResourceMapper)
  : ClusterSetResourceMapper :=
  if String.eqb clusterSetName "" then m
  else {| resourceType := resourceType m;
          setToResources := delete clusterSetName (setToResources m) |}.

(** The first loop of [Merge], over [currentMappings]. *)
Fixpoint mergeCurrent (entries : list (string * loc)) (otherMappings : gmap string loc)
    (merged : ClusterSetResourceMapper) (h : Heap) : ClusterSetResourceMapper * Heap :=
  match entries with
  | [] => (merged, h)
  | (clusterSetName, resources) :: rest =>
      match otherMappings !! clusterSetName with
      | Some otherResources =>
          let '(mergedResources, h1) := sets_Union resources otherResources h in
          mergeCurrent rest otherMappings
            (UpdateClusterSetResources clusterSetName mergedResources merged h1) h1
      | None =>
          mergeCurrent rest otherMappings
            (UpdateClusterSetResources clusterSetName resources merged h) h
      end
  end.

(** The second loop of [Merge], over [otherMappings]. *)
Fixpoint mergeOther (entries : list (string * loc)) (currentMappings : gmap string loc)
    (merged : ClusterSetResourceMapper) (h : Heap) : ClusterSetResourceMapper :=
  match entries with
  | [] => merged
  | (clusterSetName, resources) :: rest =>
      match currentMappings !! clusterSetName with
      | Some _ => mergeOther rest currentMappings merged h
      | None =>
          mergeOther rest currentMappings
            (UpdateClusterSetResources clusterSetName resources merged h) h
      end
  end.

(** [Merge]: the receiver itself for mappers of different types, one of
    the two mappers itself when the other has no mapping, and a new mapper
    otherwise. *)
Definition Merge (m other : ClusterSetResourceMapper) (h : Heap)
  : ClusterSetResourceMapper * Heap :=
  if negb (String.eqb (resourceType m) (resourceType other)) then (m, h)
  else
    let '(currentMappings, h1) := GetAllMappings m h in
    let '(otherMappings, h2) := GetAllMappings other h1 in
    if Nat.eqb (size currentMappings) 0 then (other, h2)
    else if Nat.eqb (size otherMappings) 0 then (m, h2)
    else
      let merged := NewClusterSetResourceMapper (resourceType m) in
      let '(merged, h3) :=
        mergeCurrent (map_to_list currentMappings) otherMappings merged h2 in
      (mergeOther (map_to_list otherMappings) currentMappings merged h3, h3).

(** Membership of a resource in a cluster set of the mapper. *)
Definition memberOf (resourceName clusterSetName : string)
    (m : ClusterSetResourceMapper) (h : Heap) : Prop :=
  ∃ l, setToResources m !! clusterSetName = Some l ∧ resourceName ∈ deref h l.

(** ** Fixtures: concrete stores, caches and watchers *)

(** An informer-backed lister over the objects [items], keyed by [key]:
    [Get] finds the object stored under the name or reports not-found. *)
Definition listerOf {A} (key : A → string) (items : list A) : Lister A :=
  {| lister_Get name :=
       match list_find (λ x, key x = name) items with
       | Some (_, x) => Ok x
       | None => Err (NotFound name)
       end;
     lister_List := Ok items |}.

(** A store whose reads all fail with a transient error. *)
Definition unavailable {A} (msg : string) : Lister A :=
  {| lister_Get _ := Err (Failure msg);
     lister_List := Err (Failure msg) |}.

(** A stand-in for the injected extractor: the resource names the rules of
    the role list; global when a rule lists none. *)
Definition ruleNames (role : ClusterRole) (_ _ : string) : gset string * bool :=
  (list_to_set (mjoin (ResourceNames <$> Rules role)),
   existsb (λ rule, Nat.eqb (length (ResourceNames rule)) 0) (Rules role)).

(** A watcher that only records the notifications it is given. *)
Record Recorder := {
  received : list (gset string * gset string * gset string);
}.

Global Instance Recorder_CacheWatcher : CacheWatcher Recorder :=
  λ w names users groups, {| received := received w ++ [(names, users, groups)] |}.

Definition clusterSet (name rv : string) : ManagedClusterSet :=
  {| Name := name; Labels := ∅; ResourceVersion := rv |}.

Definition alice : UserInfo := {| GetName := "alice"; GetGroups := ["dev-team"] |}.

(** Heap with one set object, [{dev}], at location 1. *)
Definition heapDev : Heap := {[ 1%positive := {["dev"]} ]}.

(** Index in which alice may see [dev]. *)
Definition indexAlice : PermissionCache :=
  {| userPermissions := {[ "alice" := 1%positive ]}; groupPermissions := ∅ |}.

(** A cache whose index grants alice [dev], over the given stores. *)
Definition cacheAlice {W} (sets : Lister ManagedClusterSet)
    (bindings : Lister ClusterRoleBinding) (ws : list W) : ClusterSetCache W :=
  {| clusterSetLister := sets;
     clusterRoleLister := listerOf RoleName [];
     clusterRoleBindingLister := bindings;
     permissionCache := indexAlice;
     getResourceNamesFromClusterRole := ruleNames;
     watchers := ws |}.


(** A store that holds [items] but whose read of the name [bad] fails
    with a transient error. *)
Definition flaky {A} (key : A → string) (items : list A) (bad : string) : Lister A :=
  {| lister_Get name :=
       if String.eqb name bad then Err (Failure "timeout")
       else lister_Get (listerOf key items) name;
     lister_List := Ok items |}.

(** ** Vocabulary of the statements *)

(** The index refers only to allocated set objects. *)
Definition wfIndex (pc : PermissionCache) (h : Heap) : Prop :=
  (∀ subject l, userPermissions pc !! subject = Some l → l ∈ dom h) ∧
  (∀ subject l, groupPermissions pc !! subject = Some l → l ∈ dom h).

(** A read by name returns the object of that name, as an indexer keyed by
    object name does. *)
Definition consistentLister (lister : Lister ManagedClusterSet) : Prop :=
  ∀ name clusterSet, lister_Get lister name = Ok clusterSet → Name clusterSet = name.

(** The names the index holds for a user and the groups of that user. *)
Definition lookupFor (pc : PermissionCache) (h : Heap) (userInfo : UserInfo) : gset string :=
  permitted h (userPermissions pc) (GetName userInfo) ∪
  ⋃ (permitted h (groupPermissions pc) <$> GetGroups userInfo).

(** [List] answers with exactly the permitted, existing and selected
    resources, each once. *)
Definition listsExactlyPermitted {W} (c : ClusterSetCache W) (userInfo : UserInfo)
    (selector : Selector) (h : Heap) : Prop :=
  ∃ items,
    (List c userInfo selector h).1 = Ok items ∧
    NoDup items ∧
    ∀ clusterSet,
      clusterSet ∈ items ↔
        Name clusterSet ∈ lookupFor (permissionCache c) h userInfo ∧
        Get c (Name clusterSet) = Ok clusterSet ∧
        selector (Labels clusterSet) = true.

(** No read of a permitted name fails other than by not-found. *)
Definition readsSettle {W} (c : ClusterSetCache W) (userInfo : UserInfo) (h : Heap) : Prop :=
  ∀ name e,
    name ∈ lookupFor (permissionCache c) h userInfo →
    Get c name = Err e → errors_IsNotFound e = true.


(** What one accessible name contributes to the result of [List]. *)
Definition listed (lister : Lister ManagedClusterSet) (selector : Selector)
    (name : string) : option ManagedClusterSet :=
  match lister_Get lister name with
  | Ok clusterSet => if selector (Labels clusterSet) then Some clusterSet else None
  | Err _ => None
  end.



(** The cache of the failed-rebuild scenario: alice may see [dev] and the
    binding store cannot be read. *)
Definition cacheBindingsDown : ClusterSetCache Recorder :=
  cacheAlice (listerOf Name [clusterSet "dev" "1"]) (unavailable "connection refused") [].













(** The mapper refers only to allocated set objects. *)
Definition wfMapper (m : ClusterSetResourceMapper) (h : Heap) : Prop :=
  ∀ clusterSetName l, setToResources m !! clusterSetName = Some l → l ∈ dom h.

(** The set object stored under [clusterSetName] is stored under no other
    cluster-set name. *)
Definition unshared (clusterSetName : string) (m : ClusterSetResourceMapper) : Prop :=
  ∀ other l,
    setToResources m !! clusterSetName = Some l →
    setToResources m !! other = Some l → other = clusterSetName.

(** In the state [st], the resource is a member of the cluster set
    [clusterSetName] and of no other. *)
Definition memberOnlyOf (resourceName clusterSetName : string)
    (st : ClusterSetResourceMapper * Heap) : Prop :=
  memberOf resourceName clusterSetName st.1 st.2 ∧
  ∀ other, memberOf resourceName other st.1 st.2 → other = clusterSetName.

(** A mapper in which the caller stored one set object, [{r, x}], under
    the two names [a] and [b]. *)
Definition heapShared : Heap := (sets_NewFrom {["r"; "x"]} ∅).2.

Definition mapperShared : ClusterSetResourceMapper :=
  let shared := (sets_NewFrom {["r"; "x"]} ∅).1 in
  UpdateClusterSetResources "b" shared
    (UpdateClusterSetResources "a" shared (NewClusterSetResourceMapper "cluster") heapShared)
    heapShared.


(** Heap with one set object, [{dev, stg}], at location 1. *)
Definition heapDevStg : Heap := {[ 1%positive := {["dev"; "stg"]} ]}.

(** A cache whose index grants alice [dev] and [stg] (in [heapDevStg]);
    the store holds both, but reading [stg] fails with a transient error. *)
Definition cacheFlaky : ClusterSetCache Recorder :=
  cacheAlice (flaky Name [clusterSet "dev" "1"; clusterSet "stg" "1"] "stg")
             (listerOf BindingName []) [].

(** A cache over a store that holds [dev] at version 2 and [prod], and no
    [stg] any more. *)
Definition cacheMoved : ClusterSetCache Recorder :=
  cacheAlice (listerOf Name [clusterSet "dev" "2"; clusterSet "prod" "1"])
             (listerOf BindingName []) [].

(** A watch of alice that knows [dev] and [stg] at version 1, looking at
    [cacheMoved]. *)
Definition watchStale : ModernCacheWatcher :=
  {| user := alice; authCache := asWatchableCache cacheMoved heapDev;
     knownResources := {[ "dev" := "1"; "stg" := "1" ]};
     ctxDone := false; internalEvents := []; resultChan := [];
     resultChanCloses := 0; errors := [];
     eventBufferSize := defaultEventBufferSize;
     eventTimeout := defaultEventTimeout; started := false;
     initialResources := []; runs := []; removeWatcherCalls := 0 |}.

(** A watch of bob, who is in no group, over [cacheMoved]. *)
Definition watchBob : ModernCacheWatcher :=
  NewModernCacheWatcher {| GetName := "bob"; GetGroups := [] |}
    (asWatchableCache cacheMoved heapDev) false.


(** Two calls of [Stop] act as one and, whatever the [run] goroutines do
    afterwards, the output stream is closed exactly once: never more than
    once, and once when every goroutine has returned, which they can. *)
Definition stopClosesOnce (w : ModernCacheWatcher) : Prop :=
  Stop (Stop w) = Stop w ∧
  internalEvents (Stop (Stop w)) = internalEvents (Stop w) ∧
  resultChan (Stop (Stop w)) = resultChan (Stop w) ∧
  (∀ w', rtc run_step (Stop (Stop w)) w' →
         (resultChanCloses w' ≤ 1)%nat ∧ (runs w' = [] → resultChanCloses w' = 1)) ∧
  (∃ w', rtc run_step (Stop (Stop w)) w' ∧ runs w' = [] ∧ resultChanCloses w' = 1).


(** The member names the mapper holds for a cluster set; none for a
    name it does not know. *)
Definition membersOf (clusterSetName : string) (m : ClusterSetResourceMapper)
    (h : Heap) : gset string :=
  from_option (deref h) ∅ (setToResources m !! clusterSetName).


(** A mapper that holds the one cluster set [a] with the one member [r],
    and its heap. *)
Definition mapperOne : ClusterSetResourceMapper :=
  (AddResourceToClusterSet "r" "a" (NewClusterSetResourceMapper "cluster") ∅).1.

Definition heapOne : Heap :=
  (AddResourceToClusterSet "r" "a" (NewClusterSetResourceMapper "cluster") ∅).2.


(** A started watch of alice in its main loop, with one event queued. *)
Definition watchRunning : ModernCacheWatcher :=
  {| user := alice; authCache := asWatchableCache cacheMoved heapDev;
     knownResources := {[ "dev" := "2" ]};
     ctxDone := false;
     internalEvents := [{| Type_ := Added; Object_ := ObjClusterSet (clusterSet "prod" "1") |}];
     resultChan := [];
     resultChanCloses := 0; errors := [];
     eventBufferSize := defaultEventBufferSize;
     eventTimeout := defaultEventTimeout; started := true;
     initialResources := []; runs := [MainLoop]; removeWatcherCalls := 0 |}.






(** The ADDED event [emitInitialResources] sends for a resource. *)
Definition addedEvent (resource : Object) : Event :=
  {| Type_ := Added; Object_ := resource |}.

(** What the one [run] goroutine of a watch still has to hand to the
    consumer: the initial resources it has not emitted yet, then the queued
    events. *)
Definition undelivered (w : ModernCacheWatcher) : list Event :=
  match runs w with
  | [EmitInitial pending] => (addedEvent <$> pending) ++ internalEvents w
  | _ => internalEvents w
  end.

(** The watch has one [run] goroutine, which has not returned. *)
Definition oneRun (w : ModernCacheWatcher) : Prop :=
  runs w = [MainLoop] ∨ ∃ pending, runs w = [EmitInitial pending].

(** A watch of alice, not started, created with the existing resources
    included, with one event already queued. *)
Definition watchFresh : ModernCacheWatcher :=
  {| user := alice; authCache := asWatchableCache cacheMoved heapDev;
     knownResources := {[ "dev" := "1" ]};
     ctxDone := false;
     internalEvents := [{| Type_ := Modified; Object_ := ObjClusterSet (clusterSet "dev" "2") |}];
     resultChan := [];
     resultChanCloses := 0; errors := [];
     eventBufferSize := defaultEventBufferSize;
     eventTimeout := defaultEventTimeout; started := false;
     initialResources := [ObjClusterSet (clusterSet "dev" "1")];
     runs := []; removeWatcherCalls := 0 |}.


(** The names of the subjects of the given kind among [subjects]. *)
Definition subjectsOfKind (kind : string) (subjects : list Subject) : list string :=
  SubjectName <$> filter (λ subject, Kind subject = kind) subjects.

(** The resource names a binding grants to its subjects in the cache [c]:
    those of its role, all cluster sets for a role with global access, and
    none when the role or the cluster sets cannot be read. *)
Definition grantedBy {W} (c : ClusterSetCache W) (binding : ClusterRoleBinding)
  : gset string :=
  match lister_Get (clusterRoleLister c) (RoleRefName binding) with
  | Err _ => ∅
  | Ok clusterRole =>
      let '(names, hasAll) :=
        getResourceNamesFromClusterRole c clusterRole
          "cluster.open-cluster-management.io" "managedclustersets" in
      if hasAll then
        match lister_List (clusterSetLister c) with
        | Err _ => ∅
        | Ok allClusterSets => list_to_set (Name <$> allClusterSets)
        end
      else names
  end.

(** The resource names the bindings grant to one subject of a kind. *)
Definition grantedTo {W} (c : ClusterSetCache W) (kind : string)
    (bindings : list ClusterRoleBinding) (subject : string) : gset string :=
  ⋃ ((λ binding,
        if bool_decide (subject ∈ subjectsOfKind kind (Subjects binding))
        then grantedBy c binding else ∅) <$> bindings).

(** The roles and bindings of the rebuild scenario: [viewer] names [dev]
    and [stg], [admin] is global; alice and the group [ops] are bound to
    [viewer], bob to [admin], carol to a role that does not exist. *)
Definition rolesFixture : list ClusterRole :=
  [ {| RoleName := "viewer";
       Rules := [{| Verbs := ["get"]; APIGroups := ["cluster.open-cluster-management.io"];
                    Resources := ["managedclustersets"];
                    ResourceNames := ["dev"; "stg"] |}] |};
    {| RoleName := "admin";
       Rules := [{| Verbs := ["*"]; APIGroups := ["cluster.open-cluster-management.io"];
                    Resources := ["managedclustersets"];
                    ResourceNames := [] |}] |} ].

Definition bindingsFixture : list ClusterRoleBinding :=
  [ {| BindingName := "viewers"; RoleRefName := "viewer";
       Subjects := [{| Kind := "User"; SubjectName := "alice" |};
                    {| Kind := "Group"; SubjectName := "ops" |};
                    {| Kind := "ServiceAccount"; SubjectName := "robot" |}] |};
    {| BindingName := "admins"; RoleRefName := "admin";
       Subjects := [{| Kind := "User"; SubjectName := "bob" |}] |};
    {| BindingName := "lost"; RoleRefName := "gone";
       Subjects := [{| Kind := "User"; SubjectName := "carol" |}] |} ].

(** A cache over three cluster sets with these roles and bindings, whose
    index still holds what alice could see before. *)
Definition cacheBound : ClusterSetCache Recorder :=
  {| clusterSetLister :=
       listerOf Name [clusterSet "dev" "1"; clusterSet "stg" "1"; clusterSet "prod" "1"];
     clusterRoleLister := listerOf RoleName rolesFixture;
     clusterRoleBindingLister := listerOf BindingName bindingsFixture;
     permissionCache := indexAlice;
     getResourceNamesFromClusterRole := ruleNames;
     watchers := [] |}.


(** The index after a binding was processed, against the index before:
    every set object is still there, only the index of the cache changed,
    and the subjects of the binding gained what it grants. *)
Definition indexGains {W} (c c' : ClusterSetCache W) (h h' : Heap)
    (subjects : list Subject) (granted : gset string) : Prop :=
  h ⊆ h' ∧ (∃ pc', c' = set_permissionCache pc' c) ∧
  wfIndex (permissionCache c') h' ∧
  (∀ k, permitted h' (userPermissions (permissionCache c')) k
        = permitted h (userPermissions (permissionCache c)) k ∪
          (if bool_decide (k ∈ subjectsOfKind "User" subjects) then granted else ∅)) ∧
  (∀ k, permitted h' (groupPermissions (permissionCache c')) k
        = permitted h (groupPermissions (permissionCache c)) k ∪
          (if bool_decide (k ∈ subjectsOfKind "Group" subjects) then granted else ∅)).


(** The binding of bob to the global role. *)
Definition bindingAdmins : ClusterRoleBinding :=
  {| BindingName := "admins"; RoleRefName := "admin";
     Subjects := [{| Kind := "User"; SubjectName := "bob" |}] |}.







(** A second mapper, holding the cluster set [a] with the one member [x],
    allocated after [mapperOne]; [heapRX] holds the sets of both mappers. *)
Definition mapperX : ClusterSetResourceMapper :=
  (AddResourceToClusterSet "x" "a" (NewClusterSetResourceMapper "cluster") heapOne).1.

Definition heapRX : Heap :=
  (AddResourceToClusterSet "x" "a" (NewClusterSetResourceMapper "cluster") heapOne).2.


(** * Properties *)

(** ** Heap of sets *)

Lemma fresh_not_allocated (h : Heap) : h !! fresh (dom h) = None.
Proof. apply not_elem_of_dom, is_fresh. Qed.

Lemma alloc_extends (h : Heap) (s : gset string) : h ⊆ <[fresh (dom h) := s]> h.
Proof. apply insert_subseteq, fresh_not_allocated. Qed.

Lemma deref_extends (h h' : Heap) (l : loc) :
  h ⊆ h' → l ∈ dom h → deref h' l = deref h l.
Proof.
  intros Hsub [s Hs]%elem_of_dom. unfold deref.
  by rewrite (lookup_weaken _ _ _ _ Hs Hsub), Hs.
Qed.

Lemma dom_extends (h h' : Heap) (l : loc) : h ⊆ h' → l ∈ dom h → l ∈ dom h'.
Proof. intros Hsub. by apply subseteq_dom. Qed.

Lemma deref_alloc (h : Heap) (s : gset string) :
  deref (<[fresh (dom h) := s]> h) (fresh (dom h)) = s.
Proof. unfold deref. by rewrite lookup_insert_eq. Qed.

Lemma permitted_extends (h h' : Heap) (m : gmap string loc) (subject : string) :
  h ⊆ h' → (∀ k l, m !! k = Some l → l ∈ dom h) →
  permitted h' m subject = permitted h m subject.
Proof.
  intros Hsub Hwf. unfold permitted.
  destruct (m !! subject) as [l|] eqn:Hl; simpl; [|done].
  eapply deref_extends; eauto.
Qed.

(** ** [getAccessibleResourceNames] *)

Lemma unionGroups_spec pc groups : ∀ acc h,
  (∀ g l, groupPermissions pc !! g = Some l → l ∈ dom h) →
  acc ∈ dom h →
  h ⊆ (unionGroups pc groups acc h).2 ∧
  (unionGroups pc groups acc h).1 ∈ dom (unionGroups pc groups acc h).2 ∧
  ((unionGroups pc groups acc h).1 = acc ∨ (unionGroups pc groups acc h).1 ∉ dom h) ∧
  deref (unionGroups pc groups acc h).2 (unionGroups pc groups acc h).1
    = deref h acc ∪ ⋃ (permitted h (groupPermissions pc) <$> groups).
Proof.
  induction groups as [|g groups IH]; intros acc h Hwf Hacc; simpl.
  - split; [done|]. split; [done|]. split; [by left|]. set_solver.
  - destruct (groupPermissions pc !! g) as [lg|] eqn:Hg; simpl.
    + set (l1 := fresh (dom h)).
      set (h1 := <[l1 := deref h acc ∪ deref h lg]> h).
      assert (Hsub : h ⊆ h1) by apply alloc_extends.
      destruct (IH l1 h1) as (Hext & Hdom & Hfresh & Hval).
      { intros g' l' Hl'. eapply dom_extends; eauto. }
      { subst h1. rewrite dom_insert_L. set_solver. }
      split; [by etrans|]. split; [done|]. split.
      { right. destruct Hfresh as [-> | Hn].
        - apply is_fresh.
        - intros Hin. apply Hn. by eapply dom_extends. }
      assert (Hpg : permitted h (groupPermissions pc) g = deref h lg)
        by (unfold permitted; by rewrite Hg).
      rewrite Hval, Hpg. subst h1 l1. rewrite deref_alloc.
      assert (Hsame : (permitted (<[fresh (dom h) := deref h acc ∪ deref h lg]> h)
                         (groupPermissions pc) <$> groups)
                      = (permitted h (groupPermissions pc) <$> groups)).
      { apply list_fmap_ext. intros _ g' _. by apply permitted_extends. }
      rewrite Hsame. set_solver.
    + destruct (IH acc h Hwf Hacc) as (Hext & Hdom & Hfresh & Hval).
      split; [done|]. split; [done|]. split; [done|].
      assert (Hpg : permitted h (groupPermissions pc) g = ∅)
        by (unfold permitted; by rewrite Hg).
      rewrite Hval, Hpg. set_solver.
Qed.

Lemma getAccessibleResourceNames_spec pc userInfo h :
  wfIndex pc h →
  h ⊆ (getAccessibleResourceNames pc userInfo h).2 ∧
  (getAccessibleResourceNames pc userInfo h).1
    ∈ dom (getAccessibleResourceNames pc userInfo h).2 ∧
  (getAccessibleResourceNames pc userInfo h).1 ∉ dom h ∧
  deref (getAccessibleResourceNames pc userInfo h).2
        (getAccessibleResourceNames pc userInfo h).1 =
    permitted h (userPermissions pc) (GetName userInfo) ∪
    ⋃ (permitted h (groupPermissions pc) <$> GetGroups userInfo).
Proof.
  intros [Hu Hg]. unfold getAccessibleResourceNames, sets_New.
  set (l0 := fresh (dom h)). set (h0 := <[l0 := ∅]> h).
  assert (Hsub0 : h ⊆ h0) by apply alloc_extends.
  assert (Hl0 : l0 ∈ dom h0) by (subst h0; rewrite dom_insert_L; set_solver).
  assert (Hd0 : deref h0 l0 = ∅) by apply deref_alloc.
  assert (Hg0 : ∀ g l, groupPermissions pc !! g = Some l → l ∈ dom h0).
  { intros g l Hl. eapply dom_extends; eauto. }
  assert (Hperm0 : (permitted h0 (groupPermissions pc) <$> GetGroups userInfo)
                   = (permitted h (groupPermissions pc) <$> GetGroups userInfo)).
  { apply list_fmap_ext. intros _ g' _. by apply permitted_extends. }
  destruct (userPermissions pc !! GetName userInfo) as [lu|] eqn:Hlu.
  - unfold sets_Union. set (l1 := fresh (dom h0)).
    set (h1 := <[l1 := deref h0 l0 ∪ deref h0 lu]> h0).
    assert (Hsub1 : h0 ⊆ h1) by apply alloc_extends.
    destruct (unionGroups_spec pc (GetGroups userInfo) l1 h1)
      as (Hext & Hdom & Hfresh & Hval).
    { intros g l Hl. eapply dom_extends; eauto. }
    { subst h1. rewrite dom_insert_L. set_solver. }
    split; [by repeat (etrans; [eassumption|])|]. split; [done|]. split.
    { intros Hin. destruct Hfresh as [Heq | Hn].
      - apply (is_fresh (dom h0)). fold l1. rewrite <- Heq.
        by eapply dom_extends.
      - apply Hn. eapply dom_extends; [|eapply dom_extends]; eauto. }
    rewrite Hval. subst h1 l1. rewrite deref_alloc, Hd0.
    assert (Hperm1 : (permitted (<[fresh (dom h0) := ∅ ∪ deref h0 lu]> h0)
                        (groupPermissions pc) <$> GetGroups userInfo)
                     = (permitted h0 (groupPermissions pc) <$> GetGroups userInfo)).
    { apply list_fmap_ext. intros _ g' _.
      apply permitted_extends; [apply alloc_extends | done]. }
    assert (Hpu : permitted h (userPermissions pc) (GetName userInfo) = deref h lu)
      by (unfold permitted; by rewrite Hlu).
    rewrite Hperm1, Hperm0, Hpu.
    rewrite (deref_extends h h0 lu Hsub0) by eauto. set_solver.
  - destruct (unionGroups_spec pc (GetGroups userInfo) l0 h0 Hg0 Hl0)
      as (Hext & Hdom & Hfresh & Hval).
    split; [by etrans|]. split; [done|]. split.
    { intros Hin. destruct Hfresh as [Heq | Hn].
      - apply (is_fresh (dom h)). fold l0. by rewrite <- Heq.
      - apply Hn. by eapply dom_extends. }
    assert (Hpu : permitted h (userPermissions pc) (GetName userInfo) = ∅)
      by (unfold permitted; by rewrite Hlu).
    rewrite Hval, Hd0, Hperm0, Hpu. set_solver.
Qed.

(** Writing to a set object the index does not refer to leaves the index
    as it was. *)
Lemma permitted_frame (h : Heap) (m : gmap string loc) (l : loc) (s : gset string)
    (subject : string) :
  (∀ k l', m !! k = Some l' → l' ≠ l) →
  permitted (<[l := s]> h) m subject = permitted h m subject.
Proof.
  intros Hne. unfold permitted.
  destruct (m !! subject) as [l'|] eqn:Hl'; simpl; [|done].
  unfold deref. rewrite lookup_insert_ne; [done|]. intros ->. by eapply Hne.
Qed.

(** C5: [getAccessibleResourceNames] returns the union of the user's name
    set and the name sets of the listed groups, a subject without an index
    entry contributing nothing, so the result is empty when neither the user
    nor any listed group has an entry; the returned set is a new object, and
    whatever is written to it afterwards leaves every set of the index
    unchanged. *)
Theorem getAccessibleResourceNames_union_copy pc userInfo h :
  wfIndex pc h →
  let r := getAccessibleResourceNames pc userInfo h in
  deref r.2 r.1 =
    permitted h (userPermissions pc) (GetName userInfo) ∪
    ⋃ (permitted h (groupPermissions pc) <$> GetGroups userInfo)
  ∧ (userPermissions pc !! GetName userInfo = None →
     (∀ g, g ∈ GetGroups userInfo → groupPermissions pc !! g = None) →
     deref r.2 r.1 = ∅)
  ∧ r.1 ∉ dom h
  ∧ (∀ subject,
       permitted r.2 (userPermissions pc) subject
         = permitted h (userPermissions pc) subject ∧
       permitted r.2 (groupPermissions pc) subject
         = permitted h (groupPermissions pc) subject)
  ∧ (∀ (s : gset string) subject,
       permitted (<[r.1 := s]> r.2) (userPermissions pc) subject
         = permitted h (userPermissions pc) subject ∧
       permitted (<[r.1 := s]> r.2) (groupPermissions pc) subject
         = permitted h (groupPermissions pc) subject).
Proof.
  intros Hwf r.
  destruct (getAccessibleResourceNames_spec pc userInfo h Hwf)
    as (Hext & Hdom & Hfresh & Hval).
  fold r in Hext, Hdom, Hfresh, Hval. destruct Hwf as [Hu Hg].
  assert (Hkeep : ∀ subject,
             permitted r.2 (userPermissions pc) subject
               = permitted h (userPermissions pc) subject ∧
             permitted r.2 (groupPermissions pc) subject
               = permitted h (groupPermissions pc) subject).
  { intros subject. split; by apply permitted_extends. }
  split; [done|]. split.
  { intros Hnone Hgroups.
    assert (Hpu : permitted h (userPermissions pc) (GetName userInfo) = ∅)
      by (unfold permitted; by rewrite Hnone).
    rewrite Hval, Hpu.
    assert (Hall : ⋃ (permitted h (groupPermissions pc) <$> GetGroups userInfo) = ∅).
    { apply empty_union_list_L, Forall_forall. intros x [g [-> Hin]]%list_elem_of_fmap.
      unfold permitted. by rewrite (Hgroups g Hin). }
    rewrite Hall. set_solver. }
  split; [done|]. split; [done|].
  intros s subject. destruct (Hkeep subject) as [<- <-].
  split; apply permitted_frame; intros k l' Hl' ->; apply Hfresh; eauto.
Qed.

(** ** [List] *)

Lemma listLoop_settled lister selector names : ∀ items,
  (∀ name e, name ∈ names → lister_Get lister name = Err e → errors_IsNotFound e = true) →
  listLoop lister selector names items
    = Ok (items ++ omap (listed lister selector) names)%list.
Proof.
  induction names as [|name names IH]; intros items Hok; simpl.
  - by rewrite app_nil_r.
  - unfold listed at 1.
    destruct (lister_Get lister name) as [clusterSet|e] eqn:Hget.
    + destruct (selector (Labels clusterSet)); simpl.
      * rewrite IH by (intros; eapply Hok; [by right|done]).
        by rewrite <- app_assoc.
      * apply IH. intros; eapply Hok; [by right|done].
    + rewrite (Hok name e) by (done || by left).
      apply IH. intros; eapply Hok; [by right|done].
Qed.

Lemma listLoop_failure lister selector names :
  ∀ (items : list ManagedClusterSet) (name : string) (e : error),
  name ∈ names → lister_Get lister name = Err e → errors_IsNotFound e = false →
  ∃ e', listLoop lister selector names items = Err e' ∧ errors_IsNotFound e' = false.
Proof.
  induction names as [|n names IH]; intros items name e Hin Hget Hnf.
  - by apply elem_of_nil in Hin.
  - simpl. destruct (lister_Get lister n) as [clusterSet|e0] eqn:Hn.
    + apply elem_of_cons in Hin as [-> | Hin]; [congruence|].
      destruct (negb (selector (Labels clusterSet))); eauto.
    + destruct (errors_IsNotFound e0) eqn:He0; [|eauto].
      apply elem_of_cons in Hin as [-> | Hin]; [congruence|]. eauto.
Qed.

Lemma omap_listed_NoDup lister selector names :
  consistentLister lister → NoDup names → NoDup (omap (listed lister selector) names).
Proof.
  intros Hcons. induction 1 as [|name names Hnotin Hnd IH]; simpl; [constructor|].
  unfold listed at 1.
  destruct (lister_Get lister name) as [clusterSet|e] eqn:Hget; [|done].
  destruct (selector (Labels clusterSet)); [|done].
  constructor; [|done].
  intros (name' & Hin' & Hl)%list_elem_of_omap. unfold listed in Hl.
  destruct (lister_Get lister name') as [cs'|] eqn:Hget'; [|done].
  destruct (selector (Labels cs')); [|done]. simplify_eq.
  apply Hcons in Hget, Hget'. congruence.
Qed.

Lemma List_names {W} (c : ClusterSetCache W) userInfo h :
  wfIndex (permissionCache c) h →
  deref (getAccessibleResourceNames (permissionCache c) userInfo h).2
        (getAccessibleResourceNames (permissionCache c) userInfo h).1
  = lookupFor (permissionCache c) h userInfo.
Proof. intros Hwf. by destruct (getAccessibleResourceNames_spec _ userInfo h Hwf) as (_&_&_&->). Qed.

(** C4, as the code has it: when no read of a permitted name fails other
    than by not-found, [List] returns exactly the resources whose name the
    index holds for the subject, that the store returns, and whose labels the
    selector accepts, names without a resource being dropped; when a read
    fails otherwise, [List] returns an error and no resources. *)
Theorem List_permitted_existing_selected {W} (c : ClusterSetCache W) userInfo selector h :
  wfIndex (permissionCache c) h →
  consistentLister (clusterSetLister c) →
  (readsSettle c userInfo h → listsExactlyPermitted c userInfo selector h) ∧
  (∀ name e,
     name ∈ lookupFor (permissionCache c) h userInfo →
     Get c name = Err e → errors_IsNotFound e = false →
     ∃ e', (List c userInfo selector h).1 = Err e' ∧ errors_IsNotFound e' = false).
Proof.
  intros Hwf Hcons.
  pose proof (List_names c userInfo h Hwf) as Hnames.
  unfold List. destruct (getAccessibleResourceNames _ userInfo h) as [l h1] eqn:Hacc.
  simpl in Hnames. split.
  - intros Hsettle. unfold listsExactlyPermitted, List. rewrite Hacc. simpl.
    eexists. split.
    { apply listLoop_settled. intros name e Hin%elem_of_elements Hget.
      rewrite Hnames in Hin. by eapply Hsettle. }
    simpl. split.
    { apply omap_listed_NoDup; [done|apply NoDup_elements]. }
    intros clusterSet. rewrite list_elem_of_omap. unfold Get. split.
    + intros (name & Hin%elem_of_elements & Hl). unfold listed in Hl.
      destruct (lister_Get (clusterSetLister c) name) as [cs|] eqn:Hget; [|done].
      destruct (selector (Labels cs)) eqn:Hsel; [|done]. simplify_eq.
      pose proof (Hcons _ _ Hget) as ->. by rewrite <- Hnames.
    + intros (Hin & Hget & Hsel). exists (Name clusterSet). split.
      * apply elem_of_elements. by rewrite Hnames.
      * unfold listed. by rewrite Hget, Hsel.
  - intros name e Hin Hget He. simpl.
    eapply listLoop_failure; [|exact Hget|exact He].
    apply elem_of_elements. by rewrite Hnames.
Qed.

(** ** Rebuild *)

Lemma rebuildPermissionCache_list_error {W} (c : ClusterSetCache W) h e :
  lister_List (clusterRoleBindingLister c) = Err e →
  rebuildPermissionCache c h = (set_permissionCache emptyPermissionCache c, h).
Proof. intros He. unfold rebuildPermissionCache. simpl. by rewrite He. Qed.

Lemma rebuildPermissionIndex_list_error {W} (c : ClusterSetCache W) h e :
  lister_List (clusterRoleBindingLister c) = Err e →
  rebuildPermissionIndex c h = (Some e, set_permissionCache emptyPermissionCache c, h).
Proof. intros He. unfold rebuildPermissionIndex. simpl. by rewrite He. Qed.

(** C1: at an index that grants alice [dev], a rebuild whose listing of the
    bindings fails leaves both maps of the index empty, in the client-go
    cache and in the controller-runtime cache (which also returns the
    error): the maps are cleared before the listing, so the index after the
    failed rebuild is not the index from before it. *)
Theorem failed_rebuild_clears_index :
  permitted heapDev (userPermissions (permissionCache cacheBindingsDown)) "alice" = {["dev"]} ∧
  lister_List (clusterRoleBindingLister cacheBindingsDown) = Err (Failure "connection refused") ∧
  permissionCache (rebuildPermissionCache cacheBindingsDown heapDev).1 = emptyPermissionCache ∧
  (rebuildPermissionIndex cacheBindingsDown heapDev).1.1 = Some (Failure "connection refused") ∧
  permissionCache (rebuildPermissionIndex cacheBindingsDown heapDev).1.2 = emptyPermissionCache ∧
  userPermissions (permissionCache (rebuildPermissionCache cacheBindingsDown heapDev).1)
    ≠ userPermissions (permissionCache cacheBindingsDown).
Proof.
  assert (He : lister_List (clusterRoleBindingLister cacheBindingsDown)
               = Err (Failure "connection refused")) by reflexivity.
  rewrite (rebuildPermissionCache_list_error _ _ _ He).
  rewrite (rebuildPermissionIndex_list_error _ _ _ He). simpl.
  split; [by vm_compute|]. split; [done|]. split; [done|]. split; [done|].
  split; [done|].
  intros Heq. assert (Hl : (∅ : gmap string loc) !! "alice" = Some 1%positive).
  { rewrite Heq. unfold indexAlice. simpl. apply lookup_singleton_eq. }
  by rewrite lookup_empty in Hl.
Qed.




(** ** Fan-out *)






(** ** The watch: access check and stop *)

Lemma sets_HasAny_false (s : gset string) (items : list string) :
  (∀ g, g ∈ items → g ∉ s) → sets_HasAny s items = false.
Proof.
  intros Hno. unfold sets_HasAny. apply not_true_is_false.
  intros (g & Hin%list_elem_of_In & Hg%bool_decide_eq_true)%existsb_exists.
  by eapply Hno.
Qed.

(** C6: a notification that names neither the user of the watch nor any
    of its groups is ignored: the watch is left exactly as it was, so its
    known-resources map is unchanged and no event is queued or emitted. *)
Theorem GroupMembershipChanged_without_access w names users groups :
  GetName (user w) ∉ users →
  (∀ g, g ∈ GetGroups (user w) → g ∉ groups) →
  watcher_GroupMembershipChanged w names users groups = w ∧
  knownResources (watcher_GroupMembershipChanged w names users groups) = knownResources w ∧
  internalEvents (watcher_GroupMembershipChanged w names users groups) = internalEvents w ∧
  resultChan (watcher_GroupMembershipChanged w names users groups) = resultChan w.
Proof.
  intros Hu Hg.
  assert (Heq : watcher_GroupMembershipChanged w names users groups = w).
  { unfold watcher_GroupMembershipChanged.
    rewrite bool_decide_eq_false_2 by done. by rewrite sets_HasAny_false. }
  by rewrite Heq.
Qed.

Lemma Stop_Stop w : Stop (Stop w) = Stop w.
Proof. unfold Stop. destruct (started w) eqn:Hs; simpl; [done | by rewrite Hs]. Qed.

Lemma defaultEmit_frame event w w' :
  defaultEmit event w w' →
  runs w' = runs w ∧ resultChanCloses w' = resultChanCloses w ∧ ctxDone w' = ctxDone w.
Proof. by destruct 1. Qed.

(** Every return of a [run] goroutine closes the result channel once, and
    nothing else closes it. *)
Lemma run_step_closes w w' :
  run_step w w' →
  resultChanCloses w' + length (runs w') = resultChanCloses w + length (runs w).
Proof.
  destruct 1 as [w i r p e es w' Hi He Hemit | w i r p Hi Hd | w i r p w' Hi He Hd Hemit
                | w i Hi | w i e es w' Hi He Hemit | w i ev q w' Hi Hq Hemit | w i Hi Hd];
    try (apply defaultEmit_frame in Hemit as (Hr & Hc & _); simpl in Hr, Hc);
    simpl; rewrite ?length_insert; try lia.
  - rewrite Hr, Hc. lia.
  - rewrite Hr, Hc. lia.
  - rewrite <- Hr in Hi. rewrite length_delete by eauto. rewrite Hc, <- Hr.
    apply lookup_lt_Some in Hi. lia.
  - rewrite Hr, Hc. lia.
  - rewrite length_delete by eauto. apply lookup_lt_Some in Hi. lia.
Qed.

Lemma run_steps_closes w w' :
  rtc run_step w w' →
  resultChanCloses w' + length (runs w') = resultChanCloses w + length (runs w).
Proof.
  induction 1 as [|w1 w2 w3 Hstep _ IH]; [done|].
  rewrite IH. by apply run_step_closes.
Qed.

(** Once the context is cancelled, the only [run] goroutine can return. *)
Lemma run_can_return w phase :
  ctxDone w = true → runs w = [phase] →
  ∃ w', rtc run_step w w' ∧ runs w' = [] ∧
        resultChanCloses w' = S (resultChanCloses w) ∧
        resultChan w' = resultChan w.
Proof.
  intros Hd Hr.
  assert (Hmain : ∀ w0, ctxDone w0 = true → runs w0 = [MainLoop] →
            ∃ w', rtc run_step w0 w' ∧ runs w' = [] ∧
                  resultChanCloses w' = S (resultChanCloses w0) ∧
                  resultChan w' = resultChan w0).
  { intros w0 Hd0 Hr0. exists (runReturn 0 w0). split.
    - apply rtc_once, run_loop_done; [by rewrite Hr0|done].
    - simpl. by rewrite Hr0. }
  destruct phase as [[|resource pending]|].
  - destruct (Hmain (set_runs (<[0 := MainLoop]> (runs w)) w)) as (w' & Hs & ?);
      [done|simpl; by rewrite Hr|].
    exists w'. split; [|done].
    eapply rtc_l; [|exact Hs]. apply run_initial_end. by rewrite Hr.
  - destruct (Hmain (set_runs (<[0 := MainLoop]> (runs w)) w)) as (w' & Hs & ?);
      [done|simpl; by rewrite Hr|].
    exists w'. split; [|done].
    eapply rtc_l; [|exact Hs]. eapply run_initial_done; [by rewrite Hr|done].
  - by apply Hmain.
Qed.

Lemma Stop_runs w : runs (Stop w) = runs w.
Proof. unfold Stop. by destruct (started w). Qed.

(** Without a [run] goroutine nothing happens to a watch. *)
Lemma runs_nil_stuck w w' : runs w = [] → rtc run_step w w' → w' = w.
Proof.
  intros Hr Hsteps. destruct Hsteps as [|w1 w2 w3 Hstep _]; [done|].
  exfalso. inversion Hstep; subst;
    match goal with
    | H : runs _ !! _ = Some _ |- _ => rewrite Hr in H; by rewrite lookup_nil in H
    end.
Qed.

(** C7, as the code has it: a second [Stop] changes nothing: the watch
    after two calls is the watch after one, so the queued and the emitted
    events are the same. On a started watch whose one [run] goroutine has
    not returned, however the goroutine proceeds after the two calls the
    result channel is closed at most once, and exactly once when the
    goroutine has returned, which it can. On a watch that is not started,
    [Stop] does nothing at all, and a watch without a [run] goroutine stays
    as it is, its result channel never being closed. *)
Theorem Stop_twice_is_Stop_once w :
  Stop (Stop w) = Stop w ∧
  internalEvents (Stop (Stop w)) = internalEvents (Stop w) ∧
  resultChan (Stop (Stop w)) = resultChan (Stop w) ∧
  resultChanCloses (Stop (Stop w)) = resultChanCloses w ∧
  (∀ phase,
     started w = true → runs w = [phase] → resultChanCloses w = 0 →
     (∀ w', rtc run_step (Stop (Stop w)) w' →
            (resultChanCloses w' ≤ 1)%nat ∧ (runs w' = [] → resultChanCloses w' = 1)) ∧
     (∃ w', rtc run_step (Stop (Stop w)) w' ∧ runs w' = [] ∧
            resultChanCloses w' = 1 ∧ resultChan w' = resultChan w)) ∧
  (started w = false → Stop (Stop w) = w) ∧
  (runs w = [] →
     ∀ w', rtc run_step (Stop (Stop w)) w' →
           w' = Stop (Stop w) ∧ resultChanCloses w' = resultChanCloses w).
Proof.
  rewrite Stop_Stop. split; [done|]. split; [done|]. split; [done|].
  assert (Hcloses : resultChanCloses (Stop w) = resultChanCloses w)
    by (unfold Stop; by destruct (started w)).
  split; [done|]. split; [|split].
  - intros phase Hst Hr Hc.
    assert (Hruns : runs (Stop w) = [phase]) by (unfold Stop; by rewrite Hst).
    assert (Hcl : resultChanCloses (Stop w) = 0) by (unfold Stop; by rewrite Hst).
    assert (Hout : resultChan (Stop w) = resultChan w) by (unfold Stop; by rewrite Hst).
    assert (Hdone : ctxDone (Stop w) = true) by (unfold Stop; by rewrite Hst).
    split.
    + intros w' Hsteps%run_steps_closes. rewrite Hruns, Hcl in Hsteps. simpl in Hsteps.
      split; [lia|]. intros Hnil. rewrite Hnil in Hsteps. simpl in Hsteps. lia.
    + destruct (run_can_return (Stop w) phase Hdone Hruns) as (w' & Hs & Hn & Hc' & Ho).
      exists w'. rewrite Hcl in Hc'. rewrite Hout in Ho. done.
  - intros Hst. unfold Stop. by rewrite Hst.
  - intros Hr w' Hsteps.
    assert (Hnil : runs (Stop w) = []) by (by rewrite Stop_runs).
    apply (runs_nil_stuck _ _ Hnil) in Hsteps. subst w'. done.
Qed.

(** ** The watch: diffing a notification *)


(** Projections of an updated watch. *)
Ltac simpl_watch :=
  cbn [internalEvents knownResources authCache ctxDone eventBufferSize user
       resultChan set_internalEvents set_knownResources].













Lemma map_keys_elem {A} (m : gmap string A) (n : string) :
  n ∈ (map_to_list m).*1 ↔ is_Some (m !! n).
Proof.
  rewrite list_elem_of_fmap. split.
  - intros ([k x] & -> & Hin%elem_of_map_to_list). by exists x.
  - intros [x Hx]. exists (n, x). split; [done|]. by apply elem_of_map_to_list.
Qed.








(** ** DELETED events carry the name of the resource *)

Lemma handleEventTimeout_events w :
  internalEvents (handleEventTimeout w) = internalEvents w.
Proof. unfold handleEventTimeout. simpl. by destruct (errors w). Qed.

Lemma deletionsLoop_events (names : gset string) : ∀ entries w,
  ∃ events,
    internalEvents (deletionsLoop names entries w) = (internalEvents w ++ events)%list ∧
    ∀ event, event ∈ events →
      ∃ name, name ∈ entries.*1 ∧ name ∉ names ∧
              event = {| Type_ := Deleted;
                         Object_ := cache_ConvertResource (authCache w) name |}.
Proof.
  induction entries as [|[name rv] entries IH]; intros w.
  - exists []. split; [by rewrite app_nil_r|]. intros event Hin. by apply elem_of_nil in Hin.
  - cbn [deletionsLoop].
    destruct (bool_decide (name ∈ names)) eqn:Hn.
    + destruct (IH w) as (events & Hev & Hall). exists events. split; [done|].
      intros event Hin. destruct (Hall event Hin) as (n & Hn1 & Hn2 & ->).
      exists n. split; [by right|done].
    + apply bool_decide_eq_false in Hn.
      destruct (selectSend _).
      * match goal with
        | |- context [deletionsLoop names entries ?w2] =>
            set (w2' := w2); destruct (IH w2') as (events & Hev & Hall)
        end.
        eexists (_ :: events).
        split; [rewrite Hev; subst w2'; simpl_watch; by rewrite <- app_assoc|].
        intros event [-> | Hin]%elem_of_cons.
        -- exists name. split; [by left|done].
        -- destruct (Hall event Hin) as (n & Hn1 & Hn2 & ->).
           exists n. split; [by right|done].
      * exists []. rewrite handleEventTimeout_events. simpl.
        split; [by rewrite app_nil_r|]. intros event Hin. by apply elem_of_nil in Hin.
      * exists []. simpl.
        split; [by rewrite app_nil_r|]. intros event Hin. by apply elem_of_nil in Hin.
Qed.

Lemma deletionsLoop_authCache (names : gset string) : ∀ entries w,
  authCache (deletionsLoop names entries w) = authCache w.
Proof.
  induction entries as [|[name rv] entries IH]; intros w; [done|].
  cbn [deletionsLoop]. destruct (bool_decide (name ∈ names)); [done|].
  destruct (selectSend _); [by rewrite IH| |done].
  unfold handleEventTimeout. simpl. by destruct (errors w).
Qed.

Lemma updatesLoop_events : ∀ l w,
  ∃ events,
    internalEvents (updatesLoop l w) = (internalEvents w ++ events)%list ∧
    ∀ event, event ∈ events → Type_ event ≠ Deleted.
Proof.
  induction l as [|name l IH]; intros w.
  - exists []. split; [by rewrite app_nil_r|]. intros event Hin. by apply elem_of_nil in Hin.
  - cbn [updatesLoop].
    destruct (cache_Get (authCache w) name) as [object|]; [|done].
    destruct (meta_Accessor object) as [accessor|]; [|done]. cbn zeta.
    destruct (bool_decide _); [done|].
    destruct (selectSend _).
    + match goal with
      | |- context [updatesLoop l ?w2] =>
          set (w2' := w2); destruct (IH w2') as (events & Hev & Hall)
      end.
      eexists (_ :: events).
      split; [rewrite Hev; subst w2'; simpl_watch; by rewrite <- app_assoc|].
      intros event [-> | Hin]%elem_of_cons; [|by apply Hall].
      simpl. by destruct (knownResources w !! name).
    + exists []. rewrite handleEventTimeout_events. simpl.
      split; [by rewrite app_nil_r|]. intros event Hin. by apply elem_of_nil in Hin.
    + exists []. simpl.
      split; [by rewrite app_nil_r|]. intros event Hin. by apply elem_of_nil in Hin.
Qed.

Lemma ConvertResource_name {W} (c : ClusterSetCache W) name :
  consistentLister (clusterSetLister c) → Name (ConvertResource c name) = name.
Proof.
  intros Hcons. unfold ConvertResource.
  destruct (lister_Get (clusterSetLister c) name) as [clusterSet|] eqn:Hget; [|done].
  by apply Hcons.
Qed.

(** C8: [ConvertResource] always returns a cluster-set object (never an
    error status) that carries the requested name, the placeholder for that
    name when the store has no such resource; and every DELETED event a
    notification makes a watch queue is for a name that was known and is not
    among the notified names, and carries [ConvertResource] of that name. *)
Theorem deleted_event_names_resource {W} (c : ClusterSetCache W) h w names users groups :
  consistentLister (clusterSetLister c) →
  authCache w = asWatchableCache c h →
  (∀ name,
     cache_ConvertResource (authCache w) name = ObjClusterSet (ConvertResource c name) ∧
     Name (ConvertResource c name) = name ∧
     (∀ e, Get c name = Err e → ConvertResource c name = placeholder name)) ∧
  ∃ events,
    internalEvents (watcher_GroupMembershipChanged w names users groups)
      = (internalEvents w ++ events)%list ∧
    ∀ event, event ∈ events → Type_ event = Deleted →
      ∃ name,
        is_Some (knownResources w !! name) ∧ name ∉ names ∧
        Object_ event = ObjClusterSet (ConvertResource c name) ∧
        Name (ConvertResource c name) = name.
Proof.
  intros Hcons Hcache. split.
  - intros name. rewrite Hcache. split; [done|].
    split; [by apply ConvertResource_name|].
    intros e He. unfold ConvertResource, Get in *. by rewrite He.
  - unfold watcher_GroupMembershipChanged.
    destruct (negb _).
    { exists []. split; [by rewrite app_nil_r|].
      intros event Hin. by apply elem_of_nil in Hin. }
    unfold handleResourceUpdates, handleResourceDeletions.
    destruct (deletionsLoop_events names (map_to_list (knownResources w)) w)
      as (events1 & Hev1 & Hall1).
    destruct (updatesLoop_events (sets_List names)
                (deletionsLoop names (map_to_list (knownResources w)) w))
      as (events2 & Hev2 & Hall2).
    exists (events1 ++ events2)%list. split; [by rewrite Hev2, Hev1, <- app_assoc|].
    intros event [Hin | Hin]%elem_of_app Hty.
    + destruct (Hall1 event Hin) as (name & Hkey%map_keys_elem & Hnot & ->).
      exists name. rewrite Hcache. simpl.
      split; [done|]. split; [done|]. split; [done|]. by apply ConvertResource_name.
    + by apply Hall2 in Hin.
Qed.

(** ** [MoveResourceToClusterSet] *)

Lemma deref_sets_Delete (h : Heap) (l l' : loc) (x : string) :
  deref (sets_Delete l x h) l' = if decide (l' = l) then deref h l ∖ {[x]} else deref h l'.
Proof.
  unfold sets_Delete, deref. case_decide as Heq.
  - subst. by rewrite lookup_insert_eq.
  - by rewrite lookup_insert_ne.
Qed.

Lemma deref_sets_Insert (h : Heap) (l l' : loc) (x : string) :
  deref (sets_Insert l x h) l' = if decide (l' = l) then deref h l ∪ {[x]} else deref h l'.
Proof.
  unfold sets_Insert, deref. case_decide as Heq.
  - subst. by rewrite lookup_insert_eq.
  - by rewrite lookup_insert_ne.
Qed.

(** The loop only deletes map entries, never the one it skips, and only
    takes the resource out of set objects. *)
Lemma removeLoop_mono resourceName skip : ∀ keys (s : gmap string loc) (h : Heap),
  (∀ k l, (removeLoop resourceName skip keys s h).1 !! k = Some l → s !! k = Some l) ∧
  (∀ k, skip = Some k → (removeLoop resourceName skip keys s h).1 !! k = s !! k) ∧
  (∀ l, deref (removeLoop resourceName skip keys s h).2 l ⊆ deref h l) ∧
  dom h ⊆ dom (removeLoop resourceName skip keys s h).2.
Proof.
  induction keys as [|k keys IH]; intros s h; [done|].
  cbn [removeLoop].
  destruct (s !! k) as [resources|] eqn:Hk; [|apply IH].
  destruct (bool_decide (skip = Some k)) eqn:Hskip; [apply IH|].
  apply bool_decide_eq_false in Hskip.
  destruct (sets_Has resources resourceName h); [|apply IH].
  assert (Hsub : ∀ l, deref (sets_Delete resources resourceName h) l ⊆ deref h l).
  { intros l. rewrite deref_sets_Delete. case_decide; [subst|done]. set_solver. }
  assert (Hdom : dom h ⊆ dom (sets_Delete resources resourceName h)).
  { unfold sets_Delete. rewrite dom_insert. set_solver. }
  destruct (sets_Len _ _ =? 0)%nat.
  - destruct (IH (delete k s) (sets_Delete resources resourceName h))
      as (H1 & H2 & H3 & H4).
    split; [|split; [|split]].
    + intros k' l Hl. apply H1 in Hl. by apply lookup_delete_Some in Hl as [_ ?].
    + intros k' ->. rewrite (H2 k' eq_refl). apply lookup_delete_ne. congruence.
    + intros l. etrans; [apply H3|apply Hsub].
    + etrans; [apply Hdom|apply H4].
  - destruct (IH s (sets_Delete resources resourceName h)) as (H1 & H2 & H3 & H4).
    split; [done|]. split; [done|]. split.
    + intros l. etrans; [apply H3|apply Hsub].
    + etrans; [apply Hdom|apply H4].
Qed.

(** After the loop, no visited set but the skipped one holds the resource. *)
Lemma removeLoop_removed resourceName skip : ∀ keys (s : gmap string loc) (h : Heap) k l,
  k ∈ keys → skip ≠ Some k →
  (removeLoop resourceName skip keys s h).1 !! k = Some l →
  resourceName ∉ deref (removeLoop resourceName skip keys s h).2 l.
Proof.
  induction keys as [|k0 keys IH]; intros s h k l Hin Hskip Hl.
  - by apply elem_of_nil in Hin.
  - destruct (decide (k = k0)) as [-> | Hne].
    2: { apply elem_of_cons in Hin as [? | Hin]; [done|].
         cbn [removeLoop] in *.
         destruct (s !! k0) as [resources|]; [|by apply (IH _ _ k)].
         destruct (bool_decide (skip = Some k0)); [by apply (IH _ _ k)|].
         destruct (sets_Has resources resourceName h); [|by apply (IH _ _ k)].
         destruct (sets_Len _ _ =? 0)%nat; by apply (IH _ _ k). }
    clear Hin IH. cbn [removeLoop] in *.
    assert (Hstep : ∀ s1 h1,
      (∀ k' l', s1 !! k' = Some l' → s !! k' = Some l') →
      (∀ resources, s !! k0 = Some resources → resourceName ∉ deref h1 resources) →
      (removeLoop resourceName skip keys s1 h1).1 !! k0 = Some l →
      resourceName ∉ deref (removeLoop resourceName skip keys s1 h1).2 l).
    { intros s1 h1 Hs1 Hgone Hl1.
      destruct (removeLoop_mono resourceName skip keys s1 h1) as (H1 & _ & H3 & _).
      intros Hmem. apply H3 in Hmem. eapply Hgone; [|done]. eauto. }
    destruct (s !! k0) as [resources|] eqn:Hk.
    2: { destruct (removeLoop_mono resourceName skip keys s h) as (H1 & _).
         apply H1 in Hl. congruence. }
    rewrite bool_decide_eq_false_2 in * by done.
    destruct (sets_Has resources resourceName h) eqn:Hhas.
    + assert (Hgone : ∀ r', Some resources = Some r' →
                resourceName ∉ deref (sets_Delete resources resourceName h) r').
      { intros r' [= <-]. rewrite deref_sets_Delete, decide_True by done. set_solver. }
      destruct (sets_Len _ _ =? 0)%nat.
      * apply Hstep; [|done|done].
        intros k' l' Hl'. by apply lookup_delete_Some in Hl' as [_ ?].
      * by apply Hstep.
    + apply Hstep; [done| |done].
      intros r' [= <-]. unfold sets_Has in Hhas. by apply bool_decide_eq_false in Hhas.
Qed.

Lemma moveResource_memberOnlyOf keys resourceName newClusterSetName m h :
  wfMapper m h →
  resourceName ≠ "" → newClusterSetName ≠ "" →
  unshared newClusterSetName m →
  (∀ k, is_Some (setToResources m !! k) → k ∈ keys) →
  memberOnlyOf resourceName newClusterSetName
    (moveResource keys resourceName newClusterSetName m h).
Proof.
  intros Hwf Hr Hs Hun Hkeys. unfold moveResource.
  rewrite (proj2 (String.eqb_neq _ _) Hr), (proj2 (String.eqb_neq _ _) Hs). simpl.
  pose proof (removeLoop_mono resourceName (Some newClusterSetName) keys
                (setToResources m) h) as (Hsub & Hskip & Hder & Hdom).
  pose proof (removeLoop_removed resourceName (Some newClusterSetName) keys
                (setToResources m) h) as Hgone.
  destruct (removeLoop resourceName (Some newClusterSetName) keys (setToResources m) h)
    as [s h1]. simpl in *.
  specialize (Hskip newClusterSetName eq_refl).
  assert (Hother : ∀ k l, k ≠ newClusterSetName → s !! k = Some l →
                          resourceName ∉ deref h1 l ∧ l ∈ dom h1 ∧
                          s !! newClusterSetName ≠ Some l).
  { intros k l Hne Hl. split; [|split].
    - apply (Hgone k l); [|congruence|done]. apply Hkeys. apply Hsub in Hl. eauto.
    - apply Hdom. eapply Hwf. by apply Hsub.
    - intros Hnew. apply Hne. apply (Hun k l); [by rewrite <- Hskip|by apply Hsub]. }
  destruct (s !! newClusterSetName) as [l|] eqn:Hnew.
  - split.
    + exists l. simpl. split; [done|]. rewrite deref_sets_Insert, decide_True by done.
      set_solver.
    + intros other (l' & Hl' & Hmem). simpl in *.
      destruct (decide (other = newClusterSetName)) as [|Hne]; [done|].
      destruct (Hother other l' Hne Hl') as (Hnot & _ & Hdiff).
      rewrite deref_sets_Insert, decide_False in Hmem by congruence. done.
  - unfold sets_New. split.
    + exists (fresh (dom h1)). simpl. split; [by rewrite lookup_insert_eq|].
      rewrite deref_sets_Insert, decide_True by done. set_solver.
    + intros other (l' & Hl' & Hmem). simpl in *.
      destruct (decide (other = newClusterSetName)) as [|Hne]; [done|].
      rewrite lookup_insert_ne in Hl' by done.
      destruct (Hother other l' Hne Hl') as (Hnot & Hin & _).
      assert (l' ≠ fresh (dom h1)) by (intros ->; by apply (is_fresh (dom h1))).
      rewrite deref_sets_Insert, decide_False in Hmem by done.
      unfold deref in Hmem, Hnot. rewrite lookup_insert_ne in Hmem by done. done.
Qed.

(** C9, as the code has it: when the set object stored under [S] is not
    also stored under another cluster-set name, after moving a non-empty
    resource name [r] to a non-empty cluster-set name [S], [r] is a member of
    [S] and of no other cluster set, in whatever order the map is walked. *)
Theorem MoveResourceToClusterSet_memberOnlyOf resourceName newClusterSetName m h :
  wfMapper m h →
  resourceName ≠ "" → newClusterSetName ≠ "" →
  unshared newClusterSetName m →
  memberOnlyOf resourceName newClusterSetName
    (MoveResourceToClusterSet resourceName newClusterSetName m h) ∧
  ∀ keys,
    (∀ k, is_Some (setToResources m !! k) → k ∈ keys) →
    memberOnlyOf resourceName newClusterSetName
      (moveResource keys resourceName newClusterSetName m h).
Proof.
  intros Hwf Hr Hs Hun. split.
  - apply moveResource_memberOnlyOf; try done. intros k. by rewrite map_keys_elem.
  - intros keys Hkeys. by apply moveResource_memberOnlyOf.
Qed.

(** ** The properties at concrete inputs *)

Lemma listerOf_consistent (items : list ManagedClusterSet) :
  consistentLister (listerOf Name items).
Proof.
  intros name clusterSet. simpl.
  destruct (list_find _ items) as [[i x]|] eqn:Hfind; [|done].
  intros [= <-]. by apply list_find_Some in Hfind as (_ & ? & _).
Qed.

Lemma flaky_consistent (items : list ManagedClusterSet) (bad : string) :
  consistentLister (flaky Name items bad).
Proof.
  intros name clusterSet. simpl. destruct (String.eqb name bad); [done|].
  apply (listerOf_consistent items).
Qed.


Lemma wfIndex_indexAlice (h : Heap) : 1%positive ∈ dom h → wfIndex indexAlice h.
Proof.
  intros Hin. split; intros subject l; simpl.
  - by intros [_ <-]%lookup_singleton_Some.
  - by rewrite lookup_empty.
Qed.

Lemma heapDev_allocated : 1%positive ∈ dom heapDev.
Proof. unfold heapDev. rewrite dom_singleton_L. by apply elem_of_singleton. Qed.

Lemma heapDevStg_allocated : 1%positive ∈ dom heapDevStg.
Proof. unfold heapDevStg. rewrite dom_singleton_L. by apply elem_of_singleton. Qed.



(** C4 fails as stated: [dev] is permitted, exists and is readable, but
    the read of [stg] fails, and [List] returns the error. *)
Lemma List_error_on_failed_read :
  ¬ listsExactlyPermitted cacheFlaky alice labels_Everything heapDevStg.
Proof.
  intros (items & Hlist & _).
  assert (Herr : (List cacheFlaky alice labels_Everything heapDevStg).1
                 = Err (Failure "timeout")) by (by vm_compute).
  rewrite Herr in Hlist. clear Herr. discriminate Hlist.
Qed.

(** C9 fails as stated: the caller stored one set object under [a] and
    [b]; after moving [r] to [b], [r] is still a member of [a]. *)
Lemma moved_resource_stays_in_shared_set :
  ¬ memberOnlyOf "r" "b" (MoveResourceToClusterSet "r" "b" mapperShared heapShared).
Proof.
  intros [_ Honly]. assert (Heq : "a" = "b"); [|done].
  apply Honly. exists 1%positive. split; [by vm_compute|].
  apply (bool_decide_unpack _). vm_compute. exact I.
Qed.

(** C7 fails as stated: a watch that was never started is stopped twice;
    no [run] goroutine exists, and the result channel is never closed. *)
Lemma unstarted_watch_never_closed : ¬ stopClosesOnce watchBob.
Proof.
  intros (_ & _ & _ & Hclosed & _).
  assert (Hruns : runs (Stop (Stop watchBob)) = []) by (by vm_compute).
  assert (Hnone : resultChanCloses (Stop (Stop watchBob)) = 0) by (by vm_compute).
  destruct (Hclosed (Stop (Stop watchBob)) (rtc_refl _ _)) as [_ Hone].
  specialize (Hone Hruns). rewrite Hnone in Hone. clear Hclosed Hruns Hnone.
  discriminate Hone.
Qed.

Lemma failed_read_is_visible :
  wfIndex (permissionCache cacheFlaky) heapDevStg ∧
  consistentLister (clusterSetLister cacheFlaky) ∧
  ∃ e, (List cacheFlaky alice labels_Everything heapDevStg).1 = Err e ∧
       errors_IsNotFound e = false.
Proof.
  assert (Hwf : wfIndex (permissionCache cacheFlaky) heapDevStg)
    by apply wfIndex_indexAlice, heapDevStg_allocated.
  assert (Hcons : consistentLister (clusterSetLister cacheFlaky))
    by apply flaky_consistent.
  split; [exact Hwf|]. split; [exact Hcons|].
  destruct (List_permitted_existing_selected cacheFlaky alice labels_Everything
              heapDevStg Hwf Hcons) as [_ Hfail].
  apply (Hfail "stg" (Failure "timeout")); [|reflexivity|reflexivity].
  apply (bool_decide_unpack _). vm_compute. exact I.
Defined.

Lemma alice_sees_dev_in_a_copy :
  wfIndex indexAlice heapDev ∧
  deref (getAccessibleResourceNames indexAlice alice heapDev).2
        (getAccessibleResourceNames indexAlice alice heapDev).1 = {["dev"]} ∧
  (getAccessibleResourceNames indexAlice alice heapDev).1 ∉ dom heapDev.
Proof.
  assert (Hwf : wfIndex indexAlice heapDev) by apply wfIndex_indexAlice, heapDev_allocated.
  split; [exact Hwf|].
  destruct (getAccessibleResourceNames_union_copy indexAlice alice heapDev Hwf)
    as (Hval & _ & Hfresh & _).
  split; [|exact Hfresh]. rewrite Hval. by vm_compute.
Defined.


Lemma bob_ignores_alice_notification :
  GetName (user watchBob) ∉ ({["alice"]} : gset string) ∧
  watcher_GroupMembershipChanged watchBob {["dev"]} {["alice"]} {["dev-team"]} = watchBob.
Proof.
  assert (Huser : GetName (user watchBob) ∉ ({["alice"]} : gset string)).
  { intros Hin. apply (bool_decide_pack _) in Hin. vm_compute in Hin. exact Hin. }
  assert (Hgroups : ∀ g, g ∈ GetGroups (user watchBob) → g ∉ ({["dev-team"]} : gset string)).
  { intros g Hin. vm_compute in Hin. by apply elem_of_nil in Hin. }
  split; [exact Huser|].
  exact (proj1 (GroupMembershipChanged_without_access watchBob {["dev"]} {["alice"]}
                  {["dev-team"]} Huser Hgroups)).
Defined.

Lemma started_watch_closes_once :
  started (Start watchBob) = true ∧
  runs (Start watchBob) = [EmitInitial []] ∧
  Stop (Stop (Start watchBob)) = Stop (Start watchBob) ∧
  ∃ w', rtc run_step (Stop (Stop (Start watchBob))) w' ∧ runs w' = [] ∧
        resultChanCloses w' = 1.
Proof.
  assert (Hs : started (Start watchBob) = true) by (by vm_compute).
  assert (Hr : runs (Start watchBob) = [EmitInitial []]) by (by vm_compute).
  assert (Hc : resultChanCloses (Start watchBob) = 0) by (by vm_compute).
  split; [exact Hs|]. split; [exact Hr|].
  destruct (Stop_twice_is_Stop_once (Start watchBob))
    as (Hidem & _ & _ & _ & Hclose & _).
  split; [exact Hidem|].
  destruct (Hclose (EmitInitial []) Hs Hr Hc) as [_ (w' & Hsteps & Hnil & Hone & _)].
  exists w'. by repeat split.
Defined.

Lemma stale_watch_deletes_by_name :
  consistentLister (clusterSetLister cacheMoved) ∧
  authCache watchStale = asWatchableCache cacheMoved heapDev ∧
  ConvertResource cacheMoved "stg" = placeholder "stg" ∧
  ∃ events,
    internalEvents (watcher_GroupMembershipChanged watchStale {["dev"; "prod"]} {["alice"]} ∅)
      = (internalEvents watchStale ++ events)%list ∧
    ∀ event, event ∈ events → Type_ event = Deleted →
      ∃ name, name ∉ ({["dev"; "prod"]} : gset string) ∧
              Object_ event = ObjClusterSet (ConvertResource cacheMoved name) ∧
              Name (ConvertResource cacheMoved name) = name.
Proof.
  assert (Hcons : consistentLister (clusterSetLister cacheMoved))
    by apply listerOf_consistent.
  split; [exact Hcons|]. split; [reflexivity|].
  destruct (deleted_event_names_resource cacheMoved heapDev watchStale
              {["dev"; "prod"]} {["alice"]} ∅ Hcons eq_refl) as (Hconv & events & Hev & Hall).
  split.
  - destruct (Hconv "stg") as (_ & _ & Hplace). by apply (Hplace (NotFound "stg")).
  - exists events. split; [exact Hev|]. intros event Hin Hty.
    destruct (Hall event Hin Hty) as (name & _ & Hnot & Hobj & Hname). eauto.
Defined.

Lemma move_between_separate_sets :
  wfMapper (AddResourceToClusterSet "r" "a" (NewClusterSetResourceMapper "cluster") ∅).1
           (AddResourceToClusterSet "r" "a" (NewClusterSetResourceMapper "cluster") ∅).2 ∧
  unshared "b" (AddResourceToClusterSet "r" "a" (NewClusterSetResourceMapper "cluster") ∅).1 ∧
  memberOnlyOf "r" "b"
    (MoveResourceToClusterSet "r" "b"
       (AddResourceToClusterSet "r" "a" (NewClusterSetResourceMapper "cluster") ∅).1
       (AddResourceToClusterSet "r" "a" (NewClusterSetResourceMapper "cluster") ∅).2).
Proof.
  set (st := AddResourceToClusterSet "r" "a" (NewClusterSetResourceMapper "cluster") ∅).
  assert (Hmap : setToResources st.1 = {[ "a" := 1%positive ]}) by (by vm_compute).
  assert (Hwf : wfMapper st.1 st.2).
  { intros k l. rewrite Hmap. intros [_ <-]%lookup_singleton_Some.
    apply (bool_decide_unpack _). vm_compute. exact I. }
  assert (Hun : unshared "b" st.1).
  { intros other l. rewrite Hmap. by intros [? _]%lookup_singleton_Some. }
  split; [exact Hwf|]. split; [exact Hun|].
  assert (Hr : "r" ≠ "") by discriminate.
  assert (Hb : "b" ≠ "") by discriminate.
  exact (proj1 (MoveResourceToClusterSet_memberOnlyOf "r" "b" st.1 st.2 Hwf Hr Hb Hun)).
Defined.

(** ** The mapper: removing, adding, reading *)

Lemma memberOf_membersOf resourceName clusterSetName m h :
  memberOf resourceName clusterSetName m h ↔ resourceName ∈ membersOf clusterSetName m h.
Proof.
  unfold memberOf, membersOf. split.
  - intros (l & -> & Hin). done.
  - destruct (setToResources m !! clusterSetName) as [l|]; simpl; [eauto|].
    intros Hin. by apply not_elem_of_empty in Hin.
Qed.

(** The loop keeps every other resource in its set, and the set in the map. *)
Lemma removeLoop_keeps resourceName skip :
  ∀ keys (s : gmap string loc) (h : Heap) (k : string) (l : loc) (x : string),
  x ≠ resourceName → s !! k = Some l → x ∈ deref h l →
  (removeLoop resourceName skip keys s h).1 !! k = Some l ∧
  x ∈ deref (removeLoop resourceName skip keys s h).2 l.
Proof.
  induction keys as [|k0 keys IH]; intros s h k l x Hx Hk Hin; [done|].
  cbn [removeLoop].
  destruct (s !! k0) as [resources|] eqn:Hk0; [|by apply IH].
  destruct (bool_decide (skip = Some k0)); [by apply IH|].
  destruct (sets_Has resources resourceName h); [|by apply IH].
  assert (Hin1 : x ∈ deref (sets_Delete resources resourceName h) l).
  { rewrite deref_sets_Delete. case_decide as Heq; [|done]. subst.
    apply elem_of_difference. split; [done|]. by intros ?%elem_of_singleton. }
  destruct (sets_Len _ _ =? 0)%nat eqn:Hlen; [|by apply IH].
  apply IH; [done| |done].
  rewrite lookup_delete_ne; [done|]. intros ->.
  assert (resources = l) as -> by congruence.
  apply Nat.eqb_eq in Hlen. unfold sets_Len in Hlen.
  apply size_empty_inv in Hlen. apply (Hlen x) in Hin1. done.
Qed.

(** X1: after [RemoveResourceFromAllClusterSets] of a non-empty resource
    name, the resource is a member of no cluster set, and every other
    resource is a member of exactly the cluster sets it was a member of. *)
Theorem RemoveResourceFromAllClusterSets_members resourceName m h :
  resourceName ≠ "" →
  (∀ clusterSetName,
     ¬ memberOf resourceName clusterSetName
         (RemoveResourceFromAllClusterSets resourceName m h).1
         (RemoveResourceFromAllClusterSets resourceName m h).2) ∧
  (∀ other clusterSetName,
     other ≠ resourceName →
     memberOf other clusterSetName
       (RemoveResourceFromAllClusterSets resourceName m h).1
       (RemoveResourceFromAllClusterSets resourceName m h).2
     ↔ memberOf other clusterSetName m h).
Proof.
  intros Hr. unfold RemoveResourceFromAllClusterSets.
  rewrite (proj2 (String.eqb_neq _ _) Hr).
  pose proof (removeLoop_mono resourceName None (map_to_list (setToResources m)).*1
                (setToResources m) h) as (Hsub & _ & Hder & _).
  pose proof (removeLoop_removed resourceName None (map_to_list (setToResources m)).*1
                (setToResources m) h) as Hgone.
  pose proof (removeLoop_keeps resourceName None (map_to_list (setToResources m)).*1
                (setToResources m) h) as Hkeep.
  destruct (removeLoop resourceName None (map_to_list (setToResources m)).*1
              (setToResources m) h) as [s h1]. simpl in *.
  split.
  - intros k (l & Hl & Hin). simpl in *.
    apply (Hgone k l); [|done|done|done].
    apply map_keys_elem. apply Hsub in Hl. eauto.
  - intros x k Hx. split.
    + intros (l & Hl & Hin). simpl in *. exists l. split; [by apply Hsub|].
      by apply Hder.
    + intros (l & Hl & Hin). exists l. simpl. by apply (Hkeep k l x).
Qed.

(** X2: [AddResourceToClusterSet] does nothing when the resource name or
    the cluster-set name is empty; otherwise the resource becomes a member
    of the cluster set, which keeps its members, and when the set object of
    that cluster set is stored under no other name, the membership in every
    other cluster set is as before. *)
Theorem AddResourceToClusterSet_members resourceName clusterSetName m h :
  ((resourceName = "" ∨ clusterSetName = "") →
     AddResourceToClusterSet resourceName clusterSetName m h = (m, h)) ∧
  (resourceName ≠ "" → clusterSetName ≠ "" →
     membersOf clusterSetName (AddResourceToClusterSet resourceName clusterSetName m h).1
                              (AddResourceToClusterSet resourceName clusterSetName m h).2
       = membersOf clusterSetName m h ∪ {[resourceName]} ∧
     (wfMapper m h → unshared clusterSetName m →
      ∀ other, other ≠ clusterSetName →
        membersOf other (AddResourceToClusterSet resourceName clusterSetName m h).1
                        (AddResourceToClusterSet resourceName clusterSetName m h).2
          = membersOf other m h)).
Proof.
  unfold AddResourceToClusterSet. split.
  - intros [-> | ->]; [done|]. by rewrite orb_true_r.
  - intros Hr Hs.
    rewrite (proj2 (String.eqb_neq _ _) Hr), (proj2 (String.eqb_neq _ _) Hs). simpl.
    unfold membersOf.
    destruct (setToResources m !! clusterSetName) as [l|] eqn:Hl; simpl.
    + rewrite Hl. simpl. rewrite deref_sets_Insert, decide_True by done.
      split; [done|]. intros Hwf Hun other Hne.
      destruct (setToResources m !! other) as [l'|] eqn:Hl'; [|done]. simpl.
      rewrite deref_sets_Insert, decide_False; [done|].
      intros ->. apply Hne. by apply (Hun other l).
    + unfold sets_New. simpl. rewrite lookup_insert_eq. simpl.
      rewrite deref_sets_Insert, decide_True by done. rewrite deref_alloc.
      split; [done|]. intros Hwf Hun other Hne.
      rewrite lookup_insert_ne by done.
      destruct (setToResources m !! other) as [l'|] eqn:Hl'; [|done]. simpl.
      assert (l' ≠ fresh (dom h)).
      { intros ->. apply (is_fresh (dom h)). by eapply Hwf. }
      rewrite deref_sets_Insert, decide_False by done.
      unfold deref. by rewrite lookup_insert_ne.
Qed.

(** X3: [GetResourcesInClusterSet] returns a new set object that holds
    the members of the cluster set, none for an unknown cluster set, and
    whatever is written to the returned set afterwards, the members of every
    cluster set of the mapper stay as they were. *)
Theorem GetResourcesInClusterSet_copy clusterSetName m h :
  wfMapper m h →
  deref (GetResourcesInClusterSet clusterSetName m h).2
        (GetResourcesInClusterSet clusterSetName m h).1 = membersOf clusterSetName m h ∧
  (GetResourcesInClusterSet clusterSetName m h).1 ∉ dom h ∧
  ∀ (content : gset string) other,
    membersOf other m
      (<[(GetResourcesInClusterSet clusterSetName m h).1 := content]>
         (GetResourcesInClusterSet clusterSetName m h).2)
    = membersOf other m h.
Proof.
  intros Hwf.
  assert (Hres : ∀ items : gset string,
            deref (sets_NewFrom items h).2 (sets_NewFrom items h).1 = items ∧
            (sets_NewFrom items h).1 ∉ dom h ∧
            ∀ (content : gset string) other,
              membersOf other m (<[(sets_NewFrom items h).1 := content]> (sets_NewFrom items h).2)
              = membersOf other m h).
  { intros items. unfold sets_NewFrom. simpl. split; [apply deref_alloc|].
    split; [apply is_fresh|]. intros content other. unfold membersOf.
    destruct (setToResources m !! other) as [l'|] eqn:Hl'; [|done]. simpl.
    assert (l' ≠ fresh (dom h)).
    { intros ->. apply (is_fresh (dom h)). by eapply Hwf. }
    unfold deref. by rewrite !lookup_insert_ne. }
  unfold GetResourcesInClusterSet, membersOf.
  destruct (setToResources m !! clusterSetName) as [l|]; simpl.
  - apply Hres.
  - apply (Hres ∅).
Qed.

(** X4: reading a cluster set right after [UpdateClusterSetResources] of
    it gives the names of the stored set, also when that set is empty (the
    key is then deleted and the read returns an empty set); and the update
    leaves the members of every other cluster set as they were. *)
Theorem UpdateClusterSetResources_read_back clusterSetName resources m h :
  clusterSetName ≠ "" →
  membersOf clusterSetName (UpdateClusterSetResources clusterSetName resources m h) h
    = deref h resources ∧
  deref (GetResourcesInClusterSet clusterSetName
           (UpdateClusterSetResources clusterSetName resources m h) h).2
        (GetResourcesInClusterSet clusterSetName
           (UpdateClusterSetResources clusterSetName resources m h) h).1
    = deref h resources ∧
  ∀ other, other ≠ clusterSetName →
    membersOf other (UpdateClusterSetResources clusterSetName resources m h) h
      = membersOf other m h.
Proof.
  intros Hs.
  assert (Hmem : membersOf clusterSetName
                   (UpdateClusterSetResources clusterSetName resources m h) h
                 = deref h resources).
  { unfold UpdateClusterSetResources, membersOf.
    rewrite (proj2 (String.eqb_neq _ _) Hs).
    destruct (sets_Len resources h =? 0)%nat eqn:Hlen; simpl.
    - rewrite lookup_delete_eq. simpl. apply Nat.eqb_eq in Hlen.
      unfold sets_Len in Hlen. apply size_empty_inv in Hlen.
      symmetry. by apply leibniz_equiv.
    - by rewrite lookup_insert_eq. }
  split; [done|]. split.
  - rewrite <- Hmem. unfold GetResourcesInClusterSet, membersOf.
    destruct (setToResources _ !! clusterSetName) as [l|]; simpl; apply deref_alloc.
  - intros other Hne. unfold UpdateClusterSetResources, membersOf.
    rewrite (proj2 (String.eqb_neq _ _) Hs).
    destruct (sets_Len resources h =? 0)%nat; simpl.
    + by rewrite lookup_delete_ne.
    + by rewrite lookup_insert_ne.
Qed.

(** X5: [GetClusterSetForResource] answers with a cluster set that holds
    the resource whenever one does, and with the empty string when none
    does. *)
Theorem GetClusterSetForResource_member resourceName m h :
  ((∃ clusterSetName, memberOf resourceName clusterSetName m h) →
     memberOf resourceName (GetClusterSetForResource resourceName m h) m h) ∧
  ((∀ clusterSetName, ¬ memberOf resourceName clusterSetName m h) →
     GetClusterSetForResource resourceName m h = "").
Proof.
  unfold GetClusterSetForResource.
  destruct (list_find _ (map_to_list (setToResources m))) as [[i [k l]]|] eqn:Hfind.
  - apply list_find_Some in Hfind as (Hi & Hin & _).
    apply list_elem_of_lookup_2, elem_of_map_to_list in Hi.
    assert (Hmem : memberOf resourceName k m h) by (exists l; done).
    split; [done|]. intros Hnone. by apply Hnone in Hmem.
  - split; [|done].
    intros (k & l & Hl & Hin). exfalso.
    apply list_find_None in Hfind. rewrite Forall_forall in Hfind.
    apply (Hfind (k, l)); [by apply elem_of_map_to_list|done].
Qed.

Lemma mapperOne_map : setToResources mapperOne = {[ "a" := 1%positive ]}.
Proof. by vm_compute. Qed.

Lemma mapperOne_wf : wfMapper mapperOne heapOne.
Proof.
  intros k l. rewrite mapperOne_map. intros [_ <-]%lookup_singleton_Some.
  apply (bool_decide_unpack _). vm_compute. exact I.
Qed.

Lemma remove_r_from_mapperOne :
  "r" ≠ "" ∧
  ∀ clusterSetName,
    ¬ memberOf "r" clusterSetName
        (RemoveResourceFromAllClusterSets "r" mapperOne heapOne).1
        (RemoveResourceFromAllClusterSets "r" mapperOne heapOne).2.
Proof.
  assert (Hr : "r" ≠ "") by discriminate.
  split; [exact Hr|].
  exact (proj1 (RemoveResourceFromAllClusterSets_members "r" mapperOne heapOne Hr)).
Defined.

Lemma add_x_to_mapperOne :
  "x" ≠ "" ∧ "a" ≠ "" ∧
  membersOf "a" (AddResourceToClusterSet "x" "a" mapperOne heapOne).1
                (AddResourceToClusterSet "x" "a" mapperOne heapOne).2
    = membersOf "a" mapperOne heapOne ∪ {["x"]}.
Proof.
  assert (Hx : "x" ≠ "") by discriminate.
  assert (Ha : "a" ≠ "") by discriminate.
  split; [exact Hx|]. split; [exact Ha|].
  exact (proj1 (proj2 (AddResourceToClusterSet_members "x" "a" mapperOne heapOne) Hx Ha)).
Defined.

Lemma read_a_of_mapperOne :
  wfMapper mapperOne heapOne ∧
  deref (GetResourcesInClusterSet "a" mapperOne heapOne).2
        (GetResourcesInClusterSet "a" mapperOne heapOne).1 = membersOf "a" mapperOne heapOne ∧
  (GetResourcesInClusterSet "a" mapperOne heapOne).1 ∉ dom heapOne.
Proof.
  split; [exact mapperOne_wf|].
  destruct (GetResourcesInClusterSet_copy "a" mapperOne heapOne mapperOne_wf)
    as (Hval & Hfresh & _).
  split; [exact Hval|exact Hfresh].
Defined.

Lemma update_b_of_mapperOne :
  "b" ≠ "" ∧
  membersOf "b" (UpdateClusterSetResources "b" 1%positive mapperOne heapOne) heapOne
    = deref heapOne 1%positive.
Proof.
  assert (Hb : "b" ≠ "") by discriminate.
  split; [exact Hb|].
  exact (proj1 (UpdateClusterSetResources_read_back "b" 1%positive mapperOne heapOne Hb)).
Defined.

Lemma r_is_found_in_mapperOne :
  memberOf "r" "a" mapperOne heapOne ∧
  memberOf "r" (GetClusterSetForResource "r" mapperOne heapOne) mapperOne heapOne.
Proof.
  assert (Hmem : memberOf "r" "a" mapperOne heapOne).
  { exists 1%positive. split; [by rewrite mapperOne_map|].
    apply (bool_decide_unpack _). vm_compute. exact I. }
  split; [exact Hmem|].
  apply (proj1 (GetClusterSetForResource_member "r" mapperOne heapOne)).
  exists "a". exact Hmem.
Defined.

(** ** The watch: the event buffer and the run loop *)






(** X7: while the context is live and no error is pending, the main loop
    of the one [run] goroutine neither loses nor reorders events: after any
    number of its steps, the events handed to the consumer followed by the
    events still queued are the events handed over before followed by the
    events queued before; the goroutine is still in its loop and the result
    channel is not closed. *)
Theorem run_loop_fifo w w' :
  runs w = [MainLoop] → ctxDone w = false → errors w = [] →
  rtc run_step w w' →
  (resultChan w' ++ internalEvents w' = resultChan w ++ internalEvents w)%list ∧
  runs w' = [MainLoop] ∧ ctxDone w' = false ∧ errors w' = [] ∧
  resultChanCloses w' = resultChanCloses w.
Proof.
  intros Hr Hd He Hsteps. revert Hr Hd He.
  induction Hsteps as [w|w1 w2 w3 Hstep _ IH]; intros Hr Hd He; [done|].
  assert (Hone : (resultChan w2 ++ internalEvents w2 = resultChan w1 ++ internalEvents w1)%list ∧
                 runs w2 = [MainLoop] ∧ ctxDone w2 = false ∧ errors w2 = [] ∧
                 resultChanCloses w2 = resultChanCloses w1).
  { inversion Hstep as [w i r p e es w0 Hi Herr Hemit | w i r p Hi Hdone
                       | w i r p w0 Hi Herr Hlive Hemit | w i Hi
                       | w i e es w0 Hi Herr Hemit | w i ev q w0 Hi Hq Hemit
                       | w i Hi Hdone]; subst;
      try (rewrite Hr in Hi; destruct i as [|i]; simpl in Hi; discriminate Hi);
      try congruence.
    inversion Hemit as [w Heq | w Hcancel Heq]; subst; simpl in *.
    - rewrite Hq. by rewrite <- app_assoc.
    - congruence. }
  destruct Hone as (Hq & Hr2 & Hd2 & He2 & Hc2).
  destruct (IH Hr2 Hd2 He2) as (Hq3 & Hr3 & Hd3 & He3 & Hc3).
  rewrite Hq3, Hq, Hc3, Hc2. done.
Qed.






Lemma running_watch_hands_over_in_order :
  rtc run_step watchRunning
    (set_resultChan (resultChan watchRunning ++ internalEvents watchRunning)
       (set_internalEvents [] watchRunning)) ∧
  ∀ w', rtc run_step watchRunning w' →
        (resultChan w' ++ internalEvents w'
         = resultChan watchRunning ++ internalEvents watchRunning)%list.
Proof.
  split.
  - apply rtc_once.
    apply (run_loop_event watchRunning 0
             {| Type_ := Added; Object_ := ObjClusterSet (clusterSet "prod" "1") |} []);
      [reflexivity|reflexivity|].
    apply (emit_received _ (set_internalEvents [] watchRunning)).
  - intros w' Hsteps.
    exact (proj1 (run_loop_fifo watchRunning w' eq_refl eq_refl eq_refl Hsteps)).
Defined.


(** ** The watch: back-pressure *)











(** ** The watch: from [Start] to the main loop *)

(** While the context is live and no error is pending, a step of the one
    [run] goroutine moves the head of what is undelivered to the consumer,
    or moves from the initial emission to the main loop. *)
Lemma run_step_delivers w1 w2 :
  oneRun w1 → ctxDone w1 = false → errors w1 = [] → run_step w1 w2 →
  (resultChan w2 ++ undelivered w2 = resultChan w1 ++ undelivered w1)%list ∧
  oneRun w2 ∧ ctxDone w2 = false ∧ errors w2 = [] ∧
  resultChanCloses w2 = resultChanCloses w1.
Proof.
  intros Hone Hd He Hstep. unfold undelivered, oneRun in *.
  inversion Hstep as [w i r p e es w0 Hi Herr Hemit | w i r p Hi Hdone
                     | w i r p w0 Hi Herr Hlive Hemit | w i Hi
                     | w i e es w0 Hi Herr Hemit | w i ev q w0 Hi Hq Hemit
                     | w i Hi Hdone]; subst; try congruence.
  - inversion Hemit as [w Heq | w Hcancel Heq]; subst; [|congruence].
    destruct Hone as [Hr | [p0 Hr]]; rewrite Hr in Hi;
      destruct i as [|i]; simpl in Hi; try discriminate Hi.
    injection Hi as ->. simpl. rewrite Hr. simpl.
    split; [by rewrite <- app_assoc|]. split; [right; by eexists|done].
  - destruct Hone as [Hr | [p0 Hr]]; rewrite Hr in Hi;
      destruct i as [|i]; simpl in Hi; try discriminate Hi.
    injection Hi as ->. simpl. rewrite Hr. simpl.
    split; [done|]. split; [by left|done].
  - destruct Hone as [Hr | [p0 Hr]]; rewrite Hr in Hi;
      destruct i as [|i]; simpl in Hi; try discriminate Hi.
    inversion Hemit as [w Heq | w Hcancel Heq]; subst; simpl in *; [|congruence].
    rewrite Hr, Hq. simpl.
    split; [by rewrite <- app_assoc|]. split; [by left|done].
Qed.

Lemma run_initial_reaches_loop : ∀ pending w,
  runs w = [EmitInitial pending] → ctxDone w = false → errors w = [] →
  ∃ w', rtc run_step w w' ∧ runs w' = [MainLoop] ∧
        resultChan w' = (resultChan w ++ (addedEvent <$> pending))%list ∧
        internalEvents w' = internalEvents w ∧ ctxDone w' = false ∧ errors w' = [].
Proof.
  induction pending as [|resource pending IH]; intros w Hr Hd He.
  - exists (set_runs (<[0%nat := MainLoop]> (runs w)) w). split.
    + apply rtc_once. apply run_initial_end. by rewrite Hr.
    + simpl. rewrite Hr, app_nil_r. done.
  - set (w1 := set_resultChan (resultChan w ++ [addedEvent resource]) w).
    destruct (IH (set_runs (<[0%nat := EmitInitial pending]> (runs w1)) w1))
      as (w' & Hsteps & Hr' & Ho' & Hq' & Hd' & He').
    { simpl. by rewrite Hr. }
    { done. }
    { done. }
    exists w'. split.
    + eapply rtc_l; [|exact Hsteps].
      eapply (run_initial_emit w 0 resource pending w1); [by rewrite Hr|done|done|].
      apply emit_received.
    + simpl in Ho', Hq'. rewrite Ho', <- app_assoc. done.
Qed.

Lemma run_loop_drains : ∀ queue w,
  runs w = [MainLoop] → internalEvents w = queue →
  ∃ w', rtc run_step w w' ∧ runs w' = [MainLoop] ∧
        resultChan w' = (resultChan w ++ queue)%list ∧ internalEvents w' = [].
Proof.
  induction queue as [|event queue IH]; intros w Hr Hq.
  - exists w. rewrite app_nil_r. done.
  - set (w0 := set_internalEvents queue w).
    set (w1 := set_resultChan (resultChan w0 ++ [event]) w0).
    destruct (IH w1) as (w' & Hsteps & Hr' & Ho' & Hq'); [done|done|].
    exists w'. split.
    + eapply rtc_l; [|exact Hsteps].
      eapply (run_loop_event w 0 event queue w1); [by rewrite Hr|done|].
      apply emit_received.
    + simpl in Ho'. rewrite Ho', <- app_assoc. done.
Qed.

(** X10: a watch that is started while its context is live and no error is
    pending hands the consumer its initial resources first, as ADDED events
    in the order they were listed, and the events queued by notifications
    after them: at any point of any execution of its [run] goroutine, the
    events handed over followed by what is still undelivered are the
    events handed over before the start, the ADDED events of the initial
    resources and the queued events, in this order; the goroutine has not
    returned and the result channel is not closed. The goroutine can hand
    over all of them. *)
Theorem Start_delivers_initial_first w :
  started w = false → runs w = [] → ctxDone w = false → errors w = [] →
  (∀ w', rtc run_step (Start w) w' →
     (resultChan w' ++ undelivered w'
        = resultChan w ++ (addedEvent <$> initialResources w) ++ internalEvents w)%list ∧
     oneRun w' ∧ resultChanCloses w' = resultChanCloses w) ∧
  (∃ w', rtc run_step (Start w) w' ∧ runs w' = [MainLoop] ∧
         resultChan w'
           = (resultChan w ++ (addedEvent <$> initialResources w) ++ internalEvents w)%list ∧
         internalEvents w' = []).
Proof.
  intros Hs Hr Hd He.
  assert (Hstart : runs (Start w) = [EmitInitial (initialResources w)] ∧
                   ctxDone (Start w) = false ∧ errors (Start w) = [] ∧
                   resultChan (Start w) = resultChan w ∧
                   internalEvents (Start w) = internalEvents w ∧
                   resultChanCloses (Start w) = resultChanCloses w).
  { unfold Start. rewrite Hs. simpl. by rewrite Hr. }
  destruct Hstart as (Hr0 & Hd0 & He0 & Ho0 & Hq0 & Hc0).
  split.
  - intros w' Hsteps.
    assert (Hinv : ∀ w1 w2, rtc run_step w1 w2 →
              oneRun w1 → ctxDone w1 = false → errors w1 = [] →
              (resultChan w2 ++ undelivered w2 = resultChan w1 ++ undelivered w1)%list ∧
              oneRun w2 ∧ resultChanCloses w2 = resultChanCloses w1).
    { clear. intros w1 w2 Hsteps.
      induction Hsteps as [w|w1 w2 w3 Hstep _ IH]; intros Hone Hd He; [done|].
      destruct (run_step_delivers w1 w2 Hone Hd He Hstep) as (Hq & Hone2 & Hd2 & He2 & Hc2).
      destruct (IH Hone2 Hd2 He2) as (Hq3 & Hone3 & Hc3).
      rewrite Hq3, Hq, Hc3, Hc2. done. }
    destruct (Hinv _ _ Hsteps) as (Hq & Hone & Hc); [right; by eexists|done|done|].
    rewrite Hq, Hc, Hc0, Ho0. unfold undelivered. rewrite Hr0, Hq0. done.
  - destruct (run_initial_reaches_loop (initialResources w) (Start w) Hr0 Hd0 He0)
      as (w1 & Hsteps1 & Hr1 & Ho1 & Hq1 & _).
    destruct (run_loop_drains (internalEvents w1) w1 Hr1 eq_refl)
      as (w2 & Hsteps2 & Hr2 & Ho2 & Hq2).
    exists w2. split; [by etrans|]. split; [done|]. split; [|done].
    rewrite Ho2, Ho1, Hq1, Ho0, Hq0, <- app_assoc. done.
Qed.

Lemma fresh_watch_delivers_dev_first :
  ∃ w', rtc run_step (Start watchFresh) w' ∧ runs w' = [MainLoop] ∧
        resultChan w'
          = [addedEvent (ObjClusterSet (clusterSet "dev" "1"));
             {| Type_ := Modified; Object_ := ObjClusterSet (clusterSet "dev" "2") |}] ∧
        internalEvents w' = [].
Proof.
  destruct (Start_delivers_initial_first watchFresh eq_refl eq_refl eq_refl eq_refl)
    as [_ Hall].
  exact Hall.
Defined.

(** ** Rebuilding the index *)

Lemma grant_spec (m : gmap string loc) (name : string) (rn : loc) (h : Heap) :
  (∀ k l, m !! k = Some l → l ∈ dom h) → rn ∈ dom h →
  h ⊆ (grant m name rn h).2 ∧
  (∀ k l, (grant m name rn h).1 !! k = Some l → l ∈ dom (grant m name rn h).2) ∧
  (∀ k, permitted (grant m name rn h).2 (grant m name rn h).1 k
        = if decide (k = name) then permitted h m k ∪ deref h rn else permitted h m k).
Proof.
  intros Hwf Hrn. unfold grant.
  destruct (m !! name) as [l|] eqn:Hl; cbn [sets_New sets_Union fst snd].
  - split; [apply alloc_extends|]. split.
    + intros k l'. destruct (decide (k = name)) as [->|Hne].
      * rewrite lookup_insert_eq. intros [= <-]. apply elem_of_dom.
        rewrite lookup_insert_eq. by eexists.
      * rewrite lookup_insert_ne by done. intros Hk.
        eapply dom_extends; [apply alloc_extends|]. by eapply Hwf.
    + intros k. unfold permitted at 1. destruct (decide (k = name)) as [->|Hne].
      * rewrite lookup_insert_eq. simpl. rewrite deref_alloc.
        unfold permitted. by rewrite Hl.
      * rewrite lookup_insert_ne by done.
        apply (permitted_extends h _ m k); [apply alloc_extends|done].
  - set (l := fresh (dom h)). set (h1 := <[l := ∅]> h).
    assert (Hsub1 : h ⊆ h1) by apply alloc_extends.
    assert (Hsub2 : h1 ⊆ <[fresh (dom h1) := deref h1 l ∪ deref h1 rn]> h1)
      by apply alloc_extends.
    split; [by etrans|]. split.
    + intros k l'. destruct (decide (k = name)) as [->|Hne].
      * rewrite lookup_insert_eq. intros [= <-]. apply elem_of_dom.
        rewrite lookup_insert_eq. by eexists.
      * rewrite !lookup_insert_ne by done. intros Hk.
        eapply (dom_extends h); [by etrans|]. by eapply Hwf.
    + intros k. unfold permitted at 1. destruct (decide (k = name)) as [->|Hne].
      * rewrite lookup_insert_eq. simpl. rewrite deref_alloc.
        rewrite (deref_extends h h1 rn Hsub1 Hrn).
        unfold h1, l. rewrite deref_alloc.
        unfold permitted. by rewrite Hl.
      * rewrite !lookup_insert_ne by done.
        apply (permitted_extends h _ m k); [by etrans|done].
Qed.

(** What one subject gains from a list of subjects that are granted [s]. *)
Lemma gain_cons (kind : string) (subject : Subject) (rest : list Subject)
    (k : string) (s base : gset string) :
  base ∪ (if bool_decide (k ∈ subjectsOfKind kind (subject :: rest)) then s else ∅)
  = (if decide (Kind subject = kind)
     then (if decide (k = SubjectName subject) then base ∪ s else base)
     else base)
    ∪ (if bool_decide (k ∈ subjectsOfKind kind rest) then s else ∅).
Proof.
  unfold subjectsOfKind. rewrite filter_cons.
  destruct (decide (Kind subject = kind)) as [Hk|Hk]; [|done].
  rewrite fmap_cons.
  destruct (decide (k = SubjectName subject)) as [->|Hne].
  - rewrite bool_decide_eq_true_2 by (apply elem_of_cons; by left).
    destruct (bool_decide _); set_solver.
  - destruct (bool_decide (k ∈ SubjectName <$> filter _ rest)) eqn:Hin.
    + apply bool_decide_eq_true in Hin.
      rewrite bool_decide_eq_true_2; [done|]. apply elem_of_cons; by right.
    + apply bool_decide_eq_false in Hin.
      rewrite bool_decide_eq_false_2; [done|].
      intros [?|?]%elem_of_cons; done.
Qed.

Lemma processSubjects_spec (rn : loc) : ∀ subjects pc h,
  wfIndex pc h → rn ∈ dom h →
  h ⊆ (processSubjects subjects rn pc h).2 ∧
  wfIndex (processSubjects subjects rn pc h).1 (processSubjects subjects rn pc h).2 ∧
  (∀ k, permitted (processSubjects subjects rn pc h).2
                  (userPermissions (processSubjects subjects rn pc h).1) k
        = permitted h (userPermissions pc) k ∪
          (if bool_decide (k ∈ subjectsOfKind "User" subjects) then deref h rn else ∅)) ∧
  (∀ k, permitted (processSubjects subjects rn pc h).2
                  (groupPermissions (processSubjects subjects rn pc h).1) k
        = permitted h (groupPermissions pc) k ∪
          (if bool_decide (k ∈ subjectsOfKind "Group" subjects) then deref h rn else ∅)).
Proof.
  induction subjects as [|subject rest IH]; intros pc h [Hwu Hwg] Hrn.
  - simpl. split; [done|]. split; [done|]. split; intros k; by rewrite union_empty_r_L.
  - cbn [processSubjects].
    destruct (String.eqb (Kind subject) "User") eqn:Hu.
    + apply String.eqb_eq in Hu.
      destruct (grant_spec (userPermissions pc) (SubjectName subject) rn h Hwu Hrn)
        as (Hsub & Hwf1 & Hperm).
      destruct (grant (userPermissions pc) (SubjectName subject) rn h) as [m h1].
      cbn [fst snd] in Hsub, Hwf1, Hperm.
      destruct (IH {| userPermissions := m; groupPermissions := groupPermissions pc |} h1)
        as (Hsub2 & Hwf2 & Hpu & Hpg).
      { split; [done|]. simpl. intros k l Hk. eapply dom_extends; [done|]. by eapply Hwg. }
      { by eapply dom_extends. }
      split; [by etrans|]. split; [done|]. split.
      * intros k. rewrite Hpu. cbn [userPermissions]. rewrite Hperm.
        rewrite (deref_extends h h1 rn Hsub Hrn), (gain_cons "User").
        by destruct (decide (Kind subject = _)).
      * intros k. rewrite Hpg. cbn [groupPermissions].
        rewrite (permitted_extends h h1 _ k Hsub Hwg).
        rewrite (deref_extends h h1 rn Hsub Hrn), (gain_cons "Group").
        destruct (decide (Kind subject = _)) as [E|E]; [|done]. rewrite Hu in E. discriminate E.
    + apply String.eqb_neq in Hu.
      destruct (String.eqb (Kind subject) "Group") eqn:Hg.
      * apply String.eqb_eq in Hg.
        destruct (grant_spec (groupPermissions pc) (SubjectName subject) rn h Hwg Hrn)
          as (Hsub & Hwf1 & Hperm).
        destruct (grant (groupPermissions pc) (SubjectName subject) rn h) as [m h1].
        cbn [fst snd] in Hsub, Hwf1, Hperm.
        destruct (IH {| userPermissions := userPermissions pc; groupPermissions := m |} h1)
          as (Hsub2 & Hwf2 & Hpu & Hpg).
        { split; [|done]. simpl. intros k l Hk. eapply dom_extends; [done|]. by eapply Hwu. }
        { by eapply dom_extends. }
        split; [by etrans|]. split; [done|]. split.
        -- intros k. rewrite Hpu. cbn [userPermissions].
           rewrite (permitted_extends h h1 _ k Hsub Hwu).
           rewrite (deref_extends h h1 rn Hsub Hrn), (gain_cons "User").
           by destruct (decide (Kind subject = _)).
        -- intros k. rewrite Hpg. cbn [groupPermissions]. rewrite Hperm.
           rewrite (deref_extends h h1 rn Hsub Hrn), (gain_cons "Group").
           by destruct (decide (Kind subject = _)).
      * apply String.eqb_neq in Hg.
        destruct (IH pc h) as (Hsub2 & Hwf2 & Hpu & Hpg); [done|done|].
        split; [done|]. split; [done|]. split.
        -- intros k. rewrite Hpu, (gain_cons "User"). by destruct (decide (Kind subject = _)).
        -- intros k. rewrite Hpg, (gain_cons "Group"). by destruct (decide (Kind subject = _)).
Qed.

Lemma insert_all_names (all : loc) : ∀ (l : list ManagedClusterSet) (h : Heap) (s : gset string),
  foldl (λ hh cs, sets_Insert all (Name cs) hh) (<[all := s]> h) l
  = <[all := s ∪ list_to_set (Name <$> l)]> h.
Proof.
  induction l as [|cs l IH]; intros h s.
  - simpl. by rewrite union_empty_r_L.
  - cbn [foldl]. unfold sets_Insert at 2. unfold deref.
    rewrite lookup_insert_eq, insert_insert_eq. cbn [default].
    rewrite IH. f_equal. rewrite fmap_cons, list_to_set_cons. set_solver.
Qed.

Lemma set_permissionCache_same {W} (c : ClusterSetCache W) :
  set_permissionCache (permissionCache c) c = c.
Proof. by destruct c. Qed.

Lemma wfIndex_extends pc (h h' : Heap) : h ⊆ h' → wfIndex pc h → wfIndex pc h'.
Proof.
  intros Hsub [Hu Hg]. split; intros k l Hk; (eapply dom_extends; [done|]); eauto.
Qed.


Lemma indexGains_nothing {W} (c : ClusterSetCache W) (h h' : Heap) subjects :
  wfIndex (permissionCache c) h → h ⊆ h' → indexGains c c h h' subjects ∅.
Proof.
  intros Hwf Hsub. destruct (Hwf) as [Hu Hg].
  split; [done|]. split; [exists (permissionCache c); by rewrite set_permissionCache_same|].
  split; [by eapply wfIndex_extends|].
  split; intros k; rewrite (permitted_extends h h' _ k Hsub) by done;
    destruct (bool_decide _); by rewrite union_empty_r_L.
Qed.

(** The end of [processClusterRoleBinding], from the length test on. *)
Lemma grant_resolved {W} (c : ClusterSetCache W) (subjects : list Subject)
    (h h2 : Heap) (rn : loc) :
  wfIndex (permissionCache c) h → h ⊆ h2 → rn ∈ dom h2 →
  indexGains c
    (if Nat.eqb (sets_Len rn h2) 0 then (None : option error, c, h2)
     else let '(pc, h3) := processSubjects subjects rn (permissionCache c) h2 in
          (None, set_permissionCache pc c, h3)).1.2
    h
    (if Nat.eqb (sets_Len rn h2) 0 then (None : option error, c, h2)
     else let '(pc, h3) := processSubjects subjects rn (permissionCache c) h2 in
          (None, set_permissionCache pc c, h3)).2
    subjects (deref h2 rn).
Proof.
  intros Hwf Hsub Hrn. unfold sets_Len.
  destruct (Nat.eqb (size (deref h2 rn)) 0) eqn:Hlen; cbn [fst snd].
  - apply Nat.eqb_eq, size_empty_iff in Hlen. apply leibniz_equiv in Hlen.
    rewrite Hlen. by apply indexGains_nothing.
  - pose proof (wfIndex_extends _ _ _ Hsub Hwf) as Hwf2.
    destruct (processSubjects_spec rn subjects (permissionCache c) h2 Hwf2 Hrn)
      as (Hsub3 & Hwf3 & Hpu & Hpg).
    destruct (processSubjects subjects rn (permissionCache c) h2) as [pc h3].
    cbn [fst snd] in *. destruct Hwf as [Hu Hg].
    split; [by etrans|]. split; [by eexists|]. split; [done|].
    split; intros k; cbn [set_permissionCache permissionCache].
    + by rewrite Hpu, (permitted_extends h h2 _ k Hsub).
    + by rewrite Hpg, (permitted_extends h h2 _ k Hsub).
Qed.

Lemma processClusterRoleBinding_spec {W} (c : ClusterSetCache W) binding h :
  wfIndex (permissionCache c) h →
  indexGains c (processClusterRoleBinding c binding h).1.2
             h (processClusterRoleBinding c binding h).2
             (Subjects binding) (grantedBy c binding).
Proof.
  intros Hwf. unfold processClusterRoleBinding, grantedBy.
  destruct (lister_Get (clusterRoleLister c) (RoleRefName binding)) as [role|e];
    [|by apply indexGains_nothing].
  destruct (getResourceNamesFromClusterRole c role _ _) as [names hasAll].
  cbn [sets_NewFrom]. set (rn := fresh (dom h)). set (h1 := <[rn := names]> h).
  assert (Hsub1 : h ⊆ h1) by apply alloc_extends.
  destruct hasAll.
  - destruct (lister_List (clusterSetLister c)) as [allClusterSets|e];
      [|by apply indexGains_nothing].
    cbn [sets_New]. rewrite !insert_all_names, !union_empty_l_L.
    set (all := fresh (dom h1)).
    set (h3 := <[all := list_to_set (Name <$> allClusterSets)]> h1).
    assert (Hgranted : deref h3 all = list_to_set (Name <$> allClusterSets))
      by apply deref_alloc.
    assert (Hsub3 : h ⊆ h3) by (etrans; [exact Hsub1|apply alloc_extends]).
    assert (Hdom : all ∈ dom h3).
    { apply elem_of_dom. unfold h3. rewrite lookup_insert_eq. by eexists. }
    pose proof (grant_resolved c (Subjects binding) h h3 all Hwf Hsub3 Hdom) as Hres.
    rewrite Hgranted in Hres. exact Hres.
  - assert (Hgranted : deref h1 rn = names) by apply deref_alloc.
    assert (Hdom : rn ∈ dom h1).
    { apply elem_of_dom. unfold h1. rewrite lookup_insert_eq. by eexists. }
    pose proof (grant_resolved c (Subjects binding) h h1 rn Hwf Hsub1 Hdom) as Hres.
    rewrite Hgranted in Hres. exact Hres.
Qed.

Lemma grantedBy_set_permissionCache {W} pc (c : ClusterSetCache W) binding :
  grantedBy (set_permissionCache pc c) binding = grantedBy c binding.
Proof. done. Qed.

Lemma processBindings_spec {W} : ∀ bindings (c : ClusterSetCache W) h,
  wfIndex (permissionCache c) h →
  h ⊆ (processBindings bindings c h).2 ∧
  (∃ pc', (processBindings bindings c h).1 = set_permissionCache pc' c) ∧
  wfIndex (permissionCache (processBindings bindings c h).1) (processBindings bindings c h).2 ∧
  (∀ k, permitted (processBindings bindings c h).2
                  (userPermissions (permissionCache (processBindings bindings c h).1)) k
        = permitted h (userPermissions (permissionCache c)) k ∪
          grantedTo c "User" bindings k) ∧
  (∀ k, permitted (processBindings bindings c h).2
                  (groupPermissions (permissionCache (processBindings bindings c h).1)) k
        = permitted h (groupPermissions (permissionCache c)) k ∪
          grantedTo c "Group" bindings k).
Proof.
  unfold processBindings, grantedTo.
  induction bindings as [|binding bindings IH]; intros c h Hwf.
  - simpl. split; [done|].
    split; [exists (permissionCache c); by rewrite set_permissionCache_same|].
    split; [done|]. split; intros k; by rewrite union_empty_r_L.
  - cbn [foldl fmap list_fmap union_list].
    destruct (processClusterRoleBinding_spec c binding h Hwf)
      as (Hsub1 & [pc1 Hc1] & Hwf1 & Hpu1 & Hpg1).
    destruct (processClusterRoleBinding c binding h) as [[o c1] h1].
    cbn [fst snd] in *. subst c1.
    destruct (IH (set_permissionCache pc1 c) h1 Hwf1)
      as (Hsub2 & [pc2 Hc2] & Hwf2 & Hpu2 & Hpg2).
    split; [by etrans|]. split.
    { exists pc2. rewrite Hc2. done. }
    split; [done|].
    split; intros k.
    + rewrite Hpu2, Hpu1, <- (assoc_L (∪)). done.
    + rewrite Hpg2, Hpg1, <- (assoc_L (∪)). done.
Qed.


(** X12: a rebuild that can list the bindings leaves an index that holds,
    for every user and every group, exactly the resource names granted by
    the listed bindings that name it as a User or Group subject, whatever
    the index held before; bindings whose role cannot be read grant nothing.
    [rebuildPermissionIndex] computes the same index and reports no error. *)
Theorem rebuildPermissionCache_grants {W} (c : ClusterSetCache W) (h : Heap)
    (bindings : list ClusterRoleBinding) :
  lister_List (clusterRoleBindingLister c) = Ok bindings →
  wfIndex (permissionCache (rebuildPermissionCache c h).1) (rebuildPermissionCache c h).2 ∧
  (∀ k, permitted (rebuildPermissionCache c h).2
          (userPermissions (permissionCache (rebuildPermissionCache c h).1)) k
        = grantedTo c "User" bindings k) ∧
  (∀ k, permitted (rebuildPermissionCache c h).2
          (groupPermissions (permissionCache (rebuildPermissionCache c h).1)) k
        = grantedTo c "Group" bindings k) ∧
  rebuildPermissionIndex c h
    = (None, (rebuildPermissionCache c h).1, (rebuildPermissionCache c h).2).
Proof.
  intros Hlist. unfold rebuildPermissionCache, rebuildPermissionIndex.
  cbn [set_permissionCache clusterRoleBindingLister]. rewrite Hlist.
  set (c0 := set_permissionCache emptyPermissionCache c).
  assert (Hwf0 : wfIndex (permissionCache c0) h) by (split; intros k l Hk; done).
  destruct (processBindings_spec bindings c0 h Hwf0) as (_ & _ & Hwf & Hpu & Hpg).
  assert (Hempty : ∀ k, permitted h (∅ : gmap string loc) k = ∅)
    by (intros k; unfold permitted; by rewrite lookup_empty).
  fold c0. split; [done|]. split; [|split].
  - intros k. rewrite Hpu.
    change (userPermissions (permissionCache c0)) with (∅ : gmap string loc).
    by rewrite Hempty, union_empty_l_L.
  - intros k. rewrite Hpg.
    change (groupPermissions (permissionCache c0)) with (∅ : gmap string loc).
    by rewrite Hempty, union_empty_l_L.
  - by destruct (processBindings bindings c0 h).
Qed.


(** In [cacheBound] the binding of bob grants every cluster set, the
    binding of carol, whose role is gone, none. *)
Lemma grantedBy_cacheBound :
  grantedBy cacheBound bindingAdmins = {[ "dev"; "stg"; "prod" ]} ∧
  grantedTo cacheBound "User" bindingsFixture "carol" = ∅ ∧
  grantedTo cacheBound "User" bindingsFixture "alice" = {[ "dev"; "stg" ]} ∧
  grantedTo cacheBound "Group" bindingsFixture "ops" = {[ "dev"; "stg" ]} ∧
  grantedTo cacheBound "User" bindingsFixture "robot" = ∅.
Proof. repeat split; apply set_eq; intros n; vm_compute; tauto. Qed.


Lemma rebuild_of_cacheBound :
  permitted (rebuildPermissionCache cacheBound heapDev).2
    (userPermissions (permissionCache (rebuildPermissionCache cacheBound heapDev).1)) "alice"
  = grantedTo cacheBound "User" bindingsFixture "alice" ∧
  rebuildPermissionIndex cacheBound heapDev
  = (None, (rebuildPermissionCache cacheBound heapDev).1,
     (rebuildPermissionCache cacheBound heapDev).2).
Proof.
  destruct (rebuildPermissionCache_grants cacheBound heapDev bindingsFixture eq_refl)
    as (_ & Hpu & _ & Hindex).
  split; [exact (Hpu "alice")|exact Hindex].
Defined.

(** ** Reading one subject's names *)

(** The lookup shared by [GetAccessibleResourcesForUser] and
    [GetAccessibleResourcesForGroup]: a new set object with the names the
    index holds for the subject. *)
Lemma lookup_copy (m : gmap string loc) (name : string) (h : Heap) :
  (∀ k l, m !! k = Some l → l ∈ dom h) →
  h ⊆ (match m !! name with
       | Some resources => let '(empty, h1) := sets_New h in sets_Union resources empty h1
       | None => sets_New h
       end).2 ∧
  (match m !! name with
   | Some resources => let '(empty, h1) := sets_New h in sets_Union resources empty h1
   | None => sets_New h
   end).1 ∉ dom h ∧
  deref (match m !! name with
         | Some resources => let '(empty, h1) := sets_New h in sets_Union resources empty h1
         | None => sets_New h
         end).2
        (match m !! name with
         | Some resources => let '(empty, h1) := sets_New h in sets_Union resources empty h1
         | None => sets_New h
         end).1
  = permitted h m name.
Proof.
  intros Hwf. unfold permitted.
  destruct (m !! name) as [resources|] eqn:Hm; cbn [sets_New sets_Union fst snd from_option].
  - set (h1 := <[fresh (dom h) := ∅]> h).
    assert (Hsub1 : h ⊆ h1) by apply alloc_extends.
    assert (Hsub2 : h1 ⊆ <[fresh (dom h1) := deref h1 resources ∪ deref h1 (fresh (dom h))]> h1)
      by apply alloc_extends.
    split; [by etrans|]. split.
    + intros Hin. apply (dom_extends h h1) in Hin; [|done]. by apply is_fresh in Hin.
    + rewrite deref_alloc. unfold h1 at 2. rewrite deref_alloc, union_empty_r_L.
      apply deref_extends; [done|]. by eapply Hwf.
  - split; [apply alloc_extends|]. split; [apply is_fresh|]. apply deref_alloc.
Qed.

(** X13: after a [rebuildPermissionIndex] that could list the bindings,
    [GetAccessibleResourcesForUser] and [GetAccessibleResourcesForGroup]
    answer with exactly the resource names the listed bindings grant to the
    user, or to the group; the answer is a set object that did not exist
    before, so writing to it changes no name set of the index; a subject no
    binding names gets the empty set. *)
Theorem GetAccessibleResourcesFor_after_rebuild {W} (c : ClusterSetCache W) (h : Heap)
    (bindings : list ClusterRoleBinding) (name : string) :
  lister_List (clusterRoleBindingLister c) = Ok bindings →
  deref (GetAccessibleResourcesForUser (permissionCache (rebuildPermissionIndex c h).1.2) name
           (rebuildPermissionIndex c h).2).2
        (GetAccessibleResourcesForUser (permissionCache (rebuildPermissionIndex c h).1.2) name
           (rebuildPermissionIndex c h).2).1
    = grantedTo c "User" bindings name ∧
  deref (GetAccessibleResourcesForGroup (permissionCache (rebuildPermissionIndex c h).1.2) name
           (rebuildPermissionIndex c h).2).2
        (GetAccessibleResourcesForGroup (permissionCache (rebuildPermissionIndex c h).1.2) name
           (rebuildPermissionIndex c h).2).1
    = grantedTo c "Group" bindings name ∧
  (∀ written k,
     permitted (<[(GetAccessibleResourcesForUser
                     (permissionCache (rebuildPermissionIndex c h).1.2) name
                     (rebuildPermissionIndex c h).2).1 := written]>
                (GetAccessibleResourcesForUser
                   (permissionCache (rebuildPermissionIndex c h).1.2) name
                   (rebuildPermissionIndex c h).2).2)
               (userPermissions (permissionCache (rebuildPermissionIndex c h).1.2)) k
     = grantedTo c "User" bindings k) ∧
  (∀ written k,
     permitted (<[(GetAccessibleResourcesForGroup
                     (permissionCache (rebuildPermissionIndex c h).1.2) name
                     (rebuildPermissionIndex c h).2).1 := written]>
                (GetAccessibleResourcesForGroup
                   (permissionCache (rebuildPermissionIndex c h).1.2) name
                   (rebuildPermissionIndex c h).2).2)
               (groupPermissions (permissionCache (rebuildPermissionIndex c h).1.2)) k
     = grantedTo c "Group" bindings k).
Proof.
  intros Hlist.
  assert (Hrebuild :
    wfIndex (permissionCache (rebuildPermissionIndex c h).1.2) (rebuildPermissionIndex c h).2 ∧
    (∀ k, permitted (rebuildPermissionIndex c h).2
            (userPermissions (permissionCache (rebuildPermissionIndex c h).1.2)) k
          = grantedTo c "User" bindings k) ∧
    (∀ k, permitted (rebuildPermissionIndex c h).2
            (groupPermissions (permissionCache (rebuildPermissionIndex c h).1.2)) k
          = grantedTo c "Group" bindings k)).
  { unfold rebuildPermissionIndex.
    cbn [set_permissionCache clusterRoleBindingLister]. rewrite Hlist.
    set (c0 := set_permissionCache emptyPermissionCache c).
    assert (Hwf0 : wfIndex (permissionCache c0) h) by (split; intros k l Hk; done).
    destruct (processBindings_spec bindings c0 h Hwf0) as (_ & _ & Hwf & Hpu & Hpg).
    assert (Hempty : ∀ k, permitted h (∅ : gmap string loc) k = ∅)
      by (intros k; unfold permitted; by rewrite lookup_empty).
    fold c0. destruct (processBindings bindings c0 h) as [c1 h1]. cbn [fst snd] in *.
    split; [done|]. split; intros k.
    - rewrite Hpu.
      change (userPermissions (permissionCache c0)) with (∅ : gmap string loc).
      by rewrite Hempty, union_empty_l_L.
    - rewrite Hpg.
      change (groupPermissions (permissionCache c0)) with (∅ : gmap string loc).
      by rewrite Hempty, union_empty_l_L. }
  destruct Hrebuild as ([Hwu Hwg] & Hpu & Hpg).
  set (c1 := (rebuildPermissionIndex c h).1.2) in *.
  set (h1 := (rebuildPermissionIndex c h).2) in *.
  unfold GetAccessibleResourcesForUser, GetAccessibleResourcesForGroup.
  destruct (lookup_copy (userPermissions (permissionCache c1)) name h1 Hwu)
    as (Hsubu & Hfreshu & Hderefu).
  destruct (lookup_copy (groupPermissions (permissionCache c1)) name h1 Hwg)
    as (Hsubg & Hfreshg & Hderefg).
  split; [by rewrite Hderefu|]. split; [by rewrite Hderefg|]. split.
  - intros written k. rewrite permitted_frame.
    + rewrite <- Hpu. by apply permitted_extends.
    + intros k' l' Hk' ->. apply Hfreshu. by eapply Hwu.
  - intros written k. rewrite permitted_frame.
    + rewrite <- Hpg. by apply permitted_extends.
    + intros k' l' Hk' ->. apply Hfreshg. by eapply Hwg.
Qed.

Lemma alice_reads_dev_and_stg_after_rebuild :
  deref (GetAccessibleResourcesForUser
           (permissionCache (rebuildPermissionIndex cacheBound heapDev).1.2) "alice"
           (rebuildPermissionIndex cacheBound heapDev).2).2
        (GetAccessibleResourcesForUser
           (permissionCache (rebuildPermissionIndex cacheBound heapDev).1.2) "alice"
           (rebuildPermissionIndex cacheBound heapDev).2).1
  = grantedTo cacheBound "User" bindingsFixture "alice".
Proof.
  destruct (GetAccessibleResourcesFor_after_rebuild cacheBound heapDev bindingsFixture
              "alice" eq_refl) as (Hu & _).
  exact Hu.
Defined.

(** ** The watch: a notification that changes nothing *)






(** ** The watch: what a new watch knows *)

Lemma storeKnown_other (name : string) : ∀ objs known,
  name ∉ Name <$> omap meta_Accessor objs →
  storeKnown objs known !! name = known !! name.
Proof.
  induction objs as [|object objs IH]; intros known Hnot; [done|].
  cbn [storeKnown]. cbn [omap list_omap] in Hnot.
  destruct (meta_Accessor object) as [accessor|]; [|by apply IH].
  rewrite fmap_cons, not_elem_of_cons in Hnot. destruct Hnot as [Hne Hnot].
  rewrite IH by done. by rewrite lookup_insert_ne.
Qed.

Lemma storeKnown_listed : ∀ objs known accessor,
  NoDup (Name <$> omap meta_Accessor objs) →
  accessor ∈ omap meta_Accessor objs →
  storeKnown objs known !! Name accessor = Some (ResourceVersion accessor).
Proof.
  induction objs as [|object objs IH]; intros known accessor Hnodup Hin.
  - by apply elem_of_nil in Hin.
  - cbn [storeKnown]. cbn [omap list_omap] in Hnodup, Hin.
    destruct (meta_Accessor object) as [first|]; [|by apply IH].
    rewrite fmap_cons in Hnodup. apply NoDup_cons in Hnodup as [Hfirst Hnodup].
    apply elem_of_cons in Hin as [-> | Hin].
    + rewrite storeKnown_other by done. by rewrite lookup_insert_eq.
    + by apply IH.
Qed.

Lemma storeKnown_names (name : string) : ∀ objs known,
  is_Some (storeKnown objs known !! name) ↔
  is_Some (known !! name) ∨ name ∈ Name <$> omap meta_Accessor objs.
Proof.
  induction objs as [|object objs IH]; intros known.
  - simpl. split; [by left|]. intros [?|Hin]; [done|]. by apply elem_of_nil in Hin.
  - cbn [storeKnown omap list_omap].
    destruct (meta_Accessor object) as [accessor|]; [|apply IH].
    rewrite IH, fmap_cons, elem_of_cons.
    destruct (decide (name = Name accessor)) as [->|Hne].
    + rewrite lookup_insert_eq. split; [intros _; right; by left|]. intros _. left. by eexists.
    + rewrite lookup_insert_ne by done. tauto.
Qed.

(** X15: a new watch knows exactly the names of the objects the cache
    lists for its user, those that carry object metadata; when the listed
    names are distinct, each name is known at the version of its listed
    object. The initial resources are the listed objects when they were
    asked for and none otherwise. When the cache cannot list, the watch
    knows nothing and has no initial resources. The watch is not started,
    its context is live, nothing is queued and the buffer has the default
    size. *)
Theorem NewModernCacheWatcher_knows_listed (userInfo : UserInfo) (cache : WatchableCache)
    (includeAllExistingResources : bool) :
  match cache_ListObjects cache userInfo with
  | Ok objs =>
      (∀ name, is_Some (knownResources
                          (NewModernCacheWatcher userInfo cache includeAllExistingResources)
                        !! name)
               ↔ name ∈ Name <$> omap meta_Accessor objs) ∧
      (NoDup (Name <$> omap meta_Accessor objs) →
       ∀ accessor, accessor ∈ omap meta_Accessor objs →
         knownResources (NewModernCacheWatcher userInfo cache includeAllExistingResources)
           !! Name accessor = Some (ResourceVersion accessor)) ∧
      initialResources (NewModernCacheWatcher userInfo cache includeAllExistingResources)
        = (if includeAllExistingResources then objs else [])
  | Err _ =>
      knownResources (NewModernCacheWatcher userInfo cache includeAllExistingResources) = ∅ ∧
      initialResources (NewModernCacheWatcher userInfo cache includeAllExistingResources) = []
  end ∧
  IsStarted (NewModernCacheWatcher userInfo cache includeAllExistingResources) = false ∧
  ctxDone (NewModernCacheWatcher userInfo cache includeAllExistingResources) = false ∧
  internalEvents (NewModernCacheWatcher userInfo cache includeAllExistingResources) = [] ∧
  errors (NewModernCacheWatcher userInfo cache includeAllExistingResources) = [] ∧
  runs (NewModernCacheWatcher userInfo cache includeAllExistingResources) = [] ∧
  eventBufferSize (NewModernCacheWatcher userInfo cache includeAllExistingResources)
    = defaultEventBufferSize.
Proof.
  unfold NewModernCacheWatcher, IsStarted.
  destruct (cache_ListObjects cache userInfo) as [objs|e]; cbn [knownResources initialResources
    started ctxDone internalEvents errors runs eventBufferSize]; [|done].
  split; [|done]. split; [|split; [|done]].
  - intros name. rewrite storeKnown_names, lookup_empty. split.
    + intros [[? ?]|?]; done.
    + by right.
  - intros Hnodup accessor Hin. by apply storeKnown_listed.
Qed.

(** ** Fan-out to permission-aware watches *)




(** ** The mapper: copies and merges *)

Lemma cloneLoop_spec : ∀ entries result h,
  NoDup entries.*1 →
  (∀ name l, (name, l) ∈ entries → l ∈ dom h) →
  h ⊆ (cloneLoop entries result h).2 ∧
  (∀ name, name ∉ entries.*1 → (cloneLoop entries result h).1 !! name = result !! name) ∧
  (∀ name l, (name, l) ∈ entries →
     ∃ clone, (cloneLoop entries result h).1 !! name = Some clone ∧
              clone ∉ dom h ∧ clone ∈ dom (cloneLoop entries result h).2 ∧
              deref (cloneLoop entries result h).2 clone = deref h l).
Proof.
  induction entries as [|[name0 l0] entries IH]; intros result h Hnodup Hwf.
  - simpl. split; [done|]. split; [done|]. intros name l Hin. by apply elem_of_nil in Hin.
  - cbn [cloneLoop sets_Clone sets_NewFrom]. rewrite fmap_cons in Hnodup.
    apply NoDup_cons in Hnodup as [Hfirst Hnodup].
    set (clone0 := fresh (dom h)). set (h1 := <[clone0 := deref h l0]> h).
    assert (Hsub : h ⊆ h1) by apply alloc_extends.
    destruct (IH (<[name0 := clone0]> result) h1 Hnodup) as (Hsub' & Hother & Hcloned).
    { intros name l Hin. eapply dom_extends; [done|]. eapply Hwf. apply elem_of_cons. eauto. }
    split; [by etrans|]. split.
    + intros name Hnot. rewrite fmap_cons in Hnot. apply not_elem_of_cons in Hnot as [Hne Hnot].
      rewrite Hother by done. by rewrite lookup_insert_ne.
    + intros name l [Heq | Hin]%elem_of_cons.
      * injection Heq as -> ->. exists clone0. rewrite Hother by done.
        rewrite lookup_insert_eq. split; [done|]. split; [apply is_fresh|].
        assert (Hdom : clone0 ∈ dom h1).
        { apply elem_of_dom. unfold h1. rewrite lookup_insert_eq. by eexists. }
        split; [by eapply dom_extends|].
        rewrite (deref_extends h1 _ clone0 Hsub' Hdom). apply deref_alloc.
      * destruct (Hcloned name l Hin) as (clone & Hlook & Hfresh & Hdom & Hderef).
        exists clone. split; [done|]. split.
        { intros Hold. apply Hfresh. by eapply dom_extends. }
        split; [done|]. rewrite Hderef. apply deref_extends; [done|].
        eapply Hwf. apply elem_of_cons. eauto.
Qed.

(** [GetAllMappings] returns a map with the keys of the mapper, each
    holding a new set object with the members of the cluster set. *)
Lemma GetAllMappings_spec m h :
  wfMapper m h →
  h ⊆ (GetAllMappings m h).2 ∧
  (∀ name, setToResources m !! name = None → (GetAllMappings m h).1 !! name = None) ∧
  (∀ name l, setToResources m !! name = Some l →
     ∃ clone, (GetAllMappings m h).1 !! name = Some clone ∧
              clone ∉ dom h ∧ clone ∈ dom (GetAllMappings m h).2 ∧
              deref (GetAllMappings m h).2 clone = deref h l).
Proof.
  intros Hwf. unfold GetAllMappings.
  destruct (cloneLoop_spec (map_to_list (setToResources m)) ∅ h) as (Hsub & Hother & Hcloned).
  { apply NoDup_fst_map_to_list. }
  { intros name l Hin%elem_of_map_to_list. by eapply Hwf. }
  split; [done|]. split.
  - intros name Hnone. rewrite Hother; [apply lookup_empty|].
    intros ((name' & l) & -> & Hin%elem_of_map_to_list)%list_elem_of_fmap. simpl in Hnone.
    congruence.
  - intros name l Hl. apply Hcloned. by apply elem_of_map_to_list.
Qed.

Lemma Update_spec (name : string) (l : loc) (m : ClusterSetResourceMapper) (h h' : Heap)
    (P : loc → Prop) :
  wfMapper m h → l ∈ dom h → h ⊆ h' → P l →
  (∀ s l', setToResources m !! s = Some l' → P l') →
  wfMapper (UpdateClusterSetResources name l m h) h ∧
  resourceType (UpdateClusterSetResources name l m h) = resourceType m ∧
  (∀ s l', setToResources (UpdateClusterSetResources name l m h) !! s = Some l' → P l') ∧
  (∀ s, s ≠ name → membersOf s (UpdateClusterSetResources name l m h) h' = membersOf s m h') ∧
  (name ≠ "" → membersOf name (UpdateClusterSetResources name l m h) h' = deref h l) ∧
  (name = "" → UpdateClusterSetResources name l m h = m).
Proof.
  intros Hwf Hl Hsub HP HPm. unfold UpdateClusterSetResources, membersOf, wfMapper in *.
  destruct (String.eqb name "") eqn:Hname.
  - apply String.eqb_eq in Hname. done.
  - apply String.eqb_neq in Hname.
    destruct (sets_Len l h =? 0)%nat eqn:Hlen; cbn [setToResources resourceType] in *.
    + apply Nat.eqb_eq in Hlen. unfold sets_Len in Hlen.
      apply size_empty_iff, leibniz_equiv in Hlen.
      split. { intros s l' [_ Hs]%lookup_delete_Some. by eapply Hwf. }
      split; [done|].
      split. { intros s l' [_ Hs]%lookup_delete_Some. by eapply HPm. }
      split. { intros s Hne. by rewrite lookup_delete_ne. }
      split; [|done]. intros _. by rewrite lookup_delete_eq, Hlen.
    + split.
      { intros s l' [[_ <-]|[_ Hs]]%lookup_insert_Some; [done|]. by eapply Hwf. }
      split; [done|].
      split. { intros s l' [[_ <-]|[_ Hs]]%lookup_insert_Some; [done|]. by eapply HPm. }
      split. { intros s Hne. by rewrite lookup_insert_ne. }
      split; [|done]. intros _. rewrite lookup_insert_eq. simpl.
      by apply deref_extends.
Qed.

Lemma membersOf_extends (s : string) (m : ClusterSetResourceMapper) (h h' : Heap) :
  wfMapper m h → h ⊆ h' → membersOf s m h' = membersOf s m h.
Proof. intros Hwf Hsub. by apply (permitted_extends h h' (setToResources m) s). Qed.

Lemma wfMapper_extends (m : ClusterSetResourceMapper) (h h' : Heap) :
  wfMapper m h → h ⊆ h' → wfMapper m h'.
Proof. intros Hwf Hsub s l Hs. eapply dom_extends; [done|]. by eapply Hwf. Qed.

Lemma mergeCurrent_spec (otherMappings : gmap string loc) (P : loc → Prop) :
  ∀ entries merged h,
  NoDup entries.*1 →
  (∀ s l, (s, l) ∈ entries → l ∈ dom h ∧ P l) →
  (∀ s l, otherMappings !! s = Some l → l ∈ dom h) →
  (∀ h' l, h ⊆ h' → l ∉ dom h → P l) →
  wfMapper merged h →
  (∀ s l, setToResources merged !! s = Some l → P l) →
  h ⊆ (mergeCurrent entries otherMappings merged h).2 ∧
  wfMapper (mergeCurrent entries otherMappings merged h).1
           (mergeCurrent entries otherMappings merged h).2 ∧
  resourceType (mergeCurrent entries otherMappings merged h).1 = resourceType merged ∧
  (∀ s l, setToResources (mergeCurrent entries otherMappings merged h).1 !! s = Some l → P l) ∧
  (∀ s, s ∉ entries.*1 →
     membersOf s (mergeCurrent entries otherMappings merged h).1
                 (mergeCurrent entries otherMappings merged h).2
     = membersOf s merged h) ∧
  (∀ s l, (s, l) ∈ entries → s ≠ "" →
     membersOf s (mergeCurrent entries otherMappings merged h).1
                 (mergeCurrent entries otherMappings merged h).2
     = deref h l ∪ permitted h otherMappings s).
Proof.
  induction entries as [|[name0 l0] entries IH];
    intros merged h Hnodup Hentries Hother Hfresh Hwf HP.
  - simpl. split; [done|]. split; [done|]. split; [done|]. split; [done|]. split; [done|].
    intros s l Hin. by apply elem_of_nil in Hin.
  - rewrite fmap_cons in Hnodup. apply NoDup_cons in Hnodup as [Hfirst Hnodup].
    destruct (Hentries name0 l0) as [Hl0 HP0]; [apply elem_of_cons; by left|].
    cbn [mergeCurrent].
    (* the set stored under [name0], and the heap after this iteration *)
    assert (Hstep : ∃ l1 h1,
      (match otherMappings !! name0 with
       | Some otherResources =>
           let '(mergedResources, h1) := sets_Union l0 otherResources h in
           mergeCurrent entries otherMappings
             (UpdateClusterSetResources name0 mergedResources merged h1) h1
       | None =>
           mergeCurrent entries otherMappings
             (UpdateClusterSetResources name0 l0 merged h) h
       end) = mergeCurrent entries otherMappings
                (UpdateClusterSetResources name0 l1 merged h1) h1 ∧
      h ⊆ h1 ∧ l1 ∈ dom h1 ∧ P l1 ∧
      deref h1 l1 = deref h l0 ∪ permitted h otherMappings name0).
    { unfold permitted. destruct (otherMappings !! name0) as [o|] eqn:Ho.
      - cbn [sets_Union from_option].
        exists (fresh (dom h)), (<[fresh (dom h) := deref h l0 ∪ deref h o]> h).
        split; [done|]. split; [apply alloc_extends|]. split.
        { apply elem_of_dom. rewrite lookup_insert_eq. by eexists. }
        split; [|apply deref_alloc]. apply (Hfresh h); [done|apply is_fresh].
      - exists l0, h. cbn [from_option]. rewrite union_empty_r_L. done. }
    destruct Hstep as (l1 & h1 & -> & Hsub1 & Hl1 & HP1 & Hderef1).
    pose proof (wfMapper_extends _ _ _ Hwf Hsub1) as Hwf1.
    destruct (Update_spec name0 l1 merged h1 h1 P Hwf1 Hl1 (reflexivity _) HP1 HP)
      as (Hwfu & Htyu & HPu & Hotheru & Hnameu & Hemptyu).
    destruct (IH (UpdateClusterSetResources name0 l1 merged h1) h1 Hnodup)
      as (Hsub' & Hwf' & Hty' & HP' & Hrest' & Hin'); [| | |done|done|].
    { intros s l Hin. destruct (Hentries s l) as [Hl HPl]; [apply elem_of_cons; by right|].
      split; [by eapply dom_extends|done]. }
    { intros s l Hs. eapply dom_extends; [done|]. by eapply Hother. }
    { intros h' l Hsub Hnot. apply (Hfresh h'); [by etrans|].
      intros Hold. apply Hnot. by eapply dom_extends. }
    split; [by etrans|]. split; [done|]. split; [by rewrite Hty'|]. split; [done|]. split.
    + intros s Hnot. rewrite fmap_cons in Hnot. apply not_elem_of_cons in Hnot as [Hne Hnot].
      rewrite Hrest' by done. rewrite Hotheru by done. by apply membersOf_extends.
    + intros s l [Heq | Hin]%elem_of_cons Hs.
      * injection Heq as -> ->. rewrite Hrest' by done. rewrite Hnameu by done. done.
      * rewrite (Hin' s l Hin Hs).
        destruct (Hentries s l) as [Hl _]; [apply elem_of_cons; by right|].
        rewrite (deref_extends h h1 l Hsub1 Hl).
        by rewrite (permitted_extends h h1 otherMappings s Hsub1 Hother).
Qed.

Lemma mergeOther_spec (currentMappings : gmap string loc) (h : Heap) (P : loc → Prop) :
  ∀ entries merged,
  NoDup entries.*1 →
  (∀ s l, (s, l) ∈ entries → l ∈ dom h ∧ P l) →
  wfMapper merged h →
  (∀ s l, setToResources merged !! s = Some l → P l) →
  wfMapper (mergeOther entries currentMappings merged h) h ∧
  resourceType (mergeOther entries currentMappings merged h) = resourceType merged ∧
  (∀ s l, setToResources (mergeOther entries currentMappings merged h) !! s = Some l → P l) ∧
  (∀ s, s ∉ entries.*1 →
     membersOf s (mergeOther entries currentMappings merged h) h = membersOf s merged h) ∧
  (∀ s l, (s, l) ∈ entries → s ≠ "" →
     membersOf s (mergeOther entries currentMappings merged h) h
     = match currentMappings !! s with
       | Some _ => membersOf s merged h
       | None => deref h l
       end).
Proof.
  induction entries as [|[name0 l0] entries IH]; intros merged Hnodup Hentries Hwf HP.
  - simpl. split; [done|]. split; [done|]. split; [done|]. split; [done|].
    intros s l Hin. by apply elem_of_nil in Hin.
  - rewrite fmap_cons in Hnodup. apply NoDup_cons in Hnodup as [Hfirst Hnodup].
    destruct (Hentries name0 l0) as [Hl0 HP0]; [apply elem_of_cons; by left|].
    assert (Hrest : ∀ s l, (s, l) ∈ entries → l ∈ dom h ∧ P l).
    { intros s l Hin. apply (Hentries s l). apply elem_of_cons. by right. }
    cbn [mergeOther].
    destruct (currentMappings !! name0) as [c|] eqn:Hc.
    + destruct (IH merged Hnodup Hrest Hwf HP) as (Hwf' & Hty' & HP' & Hrest' & Hin').
      split; [done|]. split; [done|]. split; [done|]. split.
      * intros s Hnot. rewrite fmap_cons in Hnot. apply not_elem_of_cons in Hnot as [_ Hnot].
        by apply Hrest'.
      * intros s l [Heq | Hin]%elem_of_cons Hs.
        -- injection Heq as -> ->. rewrite Hc. by apply Hrest'.
        -- by apply Hin'.
    + destruct (Update_spec name0 l0 merged h h P Hwf Hl0 (reflexivity _) HP0 HP)
        as (Hwfu & Htyu & HPu & Hotheru & Hnameu & Hemptyu).
      destruct (IH (UpdateClusterSetResources name0 l0 merged h) Hnodup Hrest Hwfu HPu)
        as (Hwf' & Hty' & HP' & Hrest' & Hin').
      split; [done|]. split; [by rewrite Hty'|]. split; [done|]. split.
      * intros s Hnot. rewrite fmap_cons in Hnot. apply not_elem_of_cons in Hnot as [Hne Hnot].
        rewrite Hrest' by done. by apply Hotheru.
      * intros s l [Heq | Hin]%elem_of_cons Hs.
        -- injection Heq as -> ->. rewrite Hc, Hrest' by done. by apply Hnameu.
        -- rewrite (Hin' s l Hin Hs).
           destruct (currentMappings !! s); [|done]. apply Hotheru.
           intros ->. apply Hfirst. apply list_elem_of_fmap. by exists (name0, l).
Qed.

(** The map [GetAllMappings] returns, seen from the mapper. *)
Lemma GetAllMappings_view m h :
  wfMapper m h →
  h ⊆ (GetAllMappings m h).2 ∧
  (∀ s, permitted (GetAllMappings m h).2 (GetAllMappings m h).1 s = membersOf s m h) ∧
  (∀ s, (GetAllMappings m h).1 !! s = None ↔ setToResources m !! s = None) ∧
  (∀ s l, (GetAllMappings m h).1 !! s = Some l →
          l ∈ dom (GetAllMappings m h).2 ∧ l ∉ dom h).
Proof.
  intros Hwf. destruct (GetAllMappings_spec m h Hwf) as (Hsub & Hnone & Hsome).
  destruct (GetAllMappings m h) as [copy h1]. cbn [fst snd] in *.
  split; [done|]. split; [|split].
  - intros s. unfold permitted, membersOf.
    destruct (setToResources m !! s) as [l|] eqn:Hs.
    + destruct (Hsome s l Hs) as (clone & -> & _ & _ & Hderef). done.
    + by rewrite (Hnone s Hs).
  - intros s. split; [|apply Hnone].
    intros Hcopy. destruct (setToResources m !! s) as [l|] eqn:Hs; [|done].
    destruct (Hsome s l Hs) as (clone & Hclone & _). congruence.
  - intros s l Hcopy. destruct (setToResources m !! s) as [l0|] eqn:Hs.
    + destruct (Hsome s l0 Hs) as (clone & Hclone & Hfresh & Hdom & _).
      rewrite Hcopy in Hclone. injection Hclone as <-. done.
    + rewrite (Hnone s Hs) in Hcopy. discriminate Hcopy.
Qed.

(** X17: [GetAllMappings] returns a deep copy: the returned map has the
    keys of the mapper, under each key a set object that did not exist
    before and that holds the members of that cluster set; whatever is
    written to a returned set, the members of every cluster set of the
    mapper stay as they were. *)
Theorem GetAllMappings_copy m h :
  wfMapper m h →
  dom (GetAllMappings m h).1 = dom (setToResources m) ∧
  (∀ s, permitted (GetAllMappings m h).2 (GetAllMappings m h).1 s = membersOf s m h) ∧
  (∀ s l, (GetAllMappings m h).1 !! s = Some l → l ∉ dom h) ∧
  (∀ s l written s', (GetAllMappings m h).1 !! s = Some l →
     membersOf s' m (<[l := written]> (GetAllMappings m h).2) = membersOf s' m h).
Proof.
  intros Hwf. destruct (GetAllMappings_view m h Hwf) as (Hsub & Hmem & Hkeys & Hlocs).
  split; [|split; [done|split]].
  - apply set_eq. intros s. rewrite !elem_of_dom, <- !not_eq_None_Some. by rewrite Hkeys.
  - intros s l Hl. by destruct (Hlocs s l Hl).
  - intros s l written s' Hl. destruct (Hlocs s l Hl) as [_ Hfresh].
    change (permitted (<[l := written]> (GetAllMappings m h).2) (setToResources m) s'
            = permitted h (setToResources m) s').
    rewrite permitted_frame.
    + by apply (permitted_extends h).
    + intros k l' Hk ->. apply Hfresh. by eapply Hwf.
Qed.

Lemma size_zero_lookup (M : gmap string loc) :
  (size M =? 0)%nat = true ↔ ∀ s, M !! s = None.
Proof.
  rewrite Nat.eqb_eq, map_size_empty_iff. split.
  - intros -> s. apply lookup_empty.
  - apply map_empty.
Qed.

(** X18: [Merge] of two mappers of the same resource type gives a mapper
    of that type in which, under every non-empty cluster-set name, the
    members are those of the one mapper together with those of the other;
    the two mappers keep their members. When the receiver has no mapping
    the result is the other mapper itself, when only the other has none it
    is the receiver itself, and otherwise it is a new mapper all of whose
    set objects are new. For mappers of different types the result is the
    receiver and nothing is allocated. *)
Theorem Merge_members (m other : ClusterSetResourceMapper) (h : Heap) :
  wfMapper m h → wfMapper other h →
  (resourceType m ≠ resourceType other → Merge m other h = (m, h)) ∧
  (resourceType m = resourceType other →
     h ⊆ (Merge m other h).2 ∧
     wfMapper (Merge m other h).1 (Merge m other h).2 ∧
     resourceType (Merge m other h).1 = resourceType m ∧
     (∀ s, s ≠ "" →
        membersOf s (Merge m other h).1 (Merge m other h).2
        = membersOf s m h ∪ membersOf s other h) ∧
     (setToResources m = ∅ → (Merge m other h).1 = other) ∧
     (setToResources m ≠ ∅ → setToResources other = ∅ → (Merge m other h).1 = m) ∧
     (setToResources m ≠ ∅ → setToResources other ≠ ∅ →
        ∀ s l, setToResources (Merge m other h).1 !! s = Some l → l ∉ dom h)).
Proof.
  intros Hwfm Hwfo. unfold Merge. split.
  { intros Hne. by rewrite (proj2 (String.eqb_neq _ _) Hne). }
  intros Hty. rewrite (proj2 (String.eqb_eq _ _) Hty). cbn [negb].
  destruct (GetAllMappings_view m h Hwfm) as (Hsub1 & Hmem1 & Hkeys1 & Hlocs1).
  destruct (GetAllMappings m h) as [current h1]. cbn [fst snd] in *.
  pose proof (wfMapper_extends _ _ _ Hwfo Hsub1) as Hwfo1.
  destruct (GetAllMappings_view other h1 Hwfo1) as (Hsub2 & Hmem2 & Hkeys2 & Hlocs2).
  destruct (GetAllMappings other h1) as [others h2]. cbn [fst snd] in *.
  assert (Hsub : h ⊆ h2) by (by etrans).
  assert (Hempty : ∀ (x : ClusterSetResourceMapper) s,
            setToResources x = ∅ → membersOf s x h = ∅).
  { intros x s Hx. unfold membersOf. by rewrite Hx, lookup_empty. }
  assert (Hmo : ∀ s, membersOf s other h1 = membersOf s other h)
    by (intros s; by apply membersOf_extends).
  destruct (size current =? 0)%nat eqn:Hc.
  { pose proof (proj1 (size_zero_lookup current) Hc) as Hc0.
    assert (Hm : setToResources m = ∅) by (apply map_empty; intros s; by apply Hkeys1).
    cbn [fst snd].
    split; [done|]. split; [by eapply wfMapper_extends|]. split; [done|]. split.
    { intros s _. rewrite (Hempty m s Hm), union_empty_l_L. by apply membersOf_extends. }
    split; [done|]. split; [done|]. done. }
  assert (Hm : setToResources m ≠ ∅).
  { intros Hm. assert (Hz : (size current =? 0)%nat = true).
    { apply size_zero_lookup. intros s. apply Hkeys1. by rewrite Hm, lookup_empty. }
    congruence. }
  destruct (size others =? 0)%nat eqn:Ho.
  { pose proof (proj1 (size_zero_lookup others) Ho) as Ho0.
    assert (Hoe : setToResources other = ∅) by (apply map_empty; intros s; by apply Hkeys2).
    cbn [fst snd].
    split; [done|]. split; [by eapply wfMapper_extends|]. split; [done|]. split.
    { intros s _. rewrite (Hempty other s Hoe), union_empty_r_L. by apply membersOf_extends. }
    split; [done|]. split; [done|]. done. }
  assert (Hon : setToResources other ≠ ∅).
  { intros Hoe. assert (Hz : (size others =? 0)%nat = true).
    { apply size_zero_lookup. intros s. apply Hkeys2. by rewrite Hoe, lookup_empty. }
    congruence. }
  (* the general case *)
  set (P := λ l : loc, l ∉ dom h).
  destruct (mergeCurrent_spec others P (map_to_list current)
              (NewClusterSetResourceMapper (resourceType m)) h2)
    as (Hsub3 & Hwf3 & Hty3 & HP3 & Hrest3 & Hin3).
  { apply NoDup_fst_map_to_list. }
  { intros s l Hin%elem_of_map_to_list. destruct (Hlocs1 s l Hin) as [Hdom Hfresh].
    split; [exact (dom_extends h1 h2 l Hsub2 Hdom)|done]. }
  { intros s l Hs. by destruct (Hlocs2 s l Hs). }
  { intros h' l _ Hnot Hold. apply Hnot. exact (dom_extends h h2 l Hsub Hold). }
  { intros s l Hs. cbn in Hs. rewrite lookup_empty in Hs. discriminate Hs. }
  { intros s l Hs. cbn in Hs. rewrite lookup_empty in Hs. discriminate Hs. }
  destruct (mergeCurrent (map_to_list current) others
              (NewClusterSetResourceMapper (resourceType m)) h2) as [merged h3].
  cbn [fst snd] in *.
  destruct (mergeOther_spec current h3 P (map_to_list others) merged)
    as (Hwf4 & Hty4 & HP4 & Hrest4 & Hin4).
  { apply NoDup_fst_map_to_list. }
  { intros s l Hin%elem_of_map_to_list. destruct (Hlocs2 s l Hin) as [Hdom Hfresh].
    split; [exact (dom_extends h2 h3 l Hsub3 Hdom)|].
    intros Hold. apply Hfresh. exact (dom_extends h h1 l Hsub1 Hold). }
  { done. }
  { done. }
  split; [by etrans|]. split; [done|]. split; [by rewrite Hty4, Hty3|].
  split; [|split; [done|split; [done|]]].
  - intros s Hs.
    (* what the first loop left under [s] *)
    assert (Hfirst : membersOf s merged h3 = permitted h1 current s ∪
                       match current !! s with
                       | Some _ => permitted h2 others s
                       | None => ∅
                       end).
    { unfold permitted at 1. destruct (current !! s) as [lc|] eqn:Hcs.
      - rewrite (Hin3 s lc) by (by apply elem_of_map_to_list || done).
        cbn [from_option]. destruct (Hlocs1 s lc Hcs) as [Hdom _].
        by rewrite (deref_extends h1 h2 lc Hsub2 Hdom).
      - rewrite Hrest3.
        + cbn [from_option]. unfold membersOf. simpl. rewrite lookup_empty. simpl.
          by rewrite union_empty_l_L.
        + intros ((s' & l) & -> & Hin%elem_of_map_to_list)%list_elem_of_fmap.
          simpl in Hcs. congruence. }
    rewrite Hmem1 in Hfirst. rewrite <- Hmo, <- Hmem2.
    destruct (others !! s) as [lo|] eqn:Hos.
    + rewrite (Hin4 s lo) by (by apply elem_of_map_to_list || done).
      destruct (current !! s) as [lc|] eqn:Hcs; [done|].
      assert (Hms : membersOf s m h = ∅).
      { unfold membersOf. by rewrite (proj1 (Hkeys1 s) Hcs). }
      rewrite Hms, union_empty_l_L. unfold permitted. rewrite Hos. cbn [from_option].
      destruct (Hlocs2 s lo Hos) as [Hdom _]. by apply deref_extends.
    + rewrite Hrest4.
      * rewrite Hfirst. unfold permitted at 2. rewrite Hos. cbn [from_option].
        destruct (current !! s); [|done].
        unfold permitted. by rewrite Hos.
      * intros ((s' & l) & -> & Hin%elem_of_map_to_list)%list_elem_of_fmap.
        simpl in Hos. congruence.
  - intros _ _ s l Hs. by apply (HP4 s l).
Qed.

Lemma mapperX_map : setToResources mapperX = {[ "a" := 2%positive ]}.
Proof. by vm_compute. Qed.

Lemma mapperOne_wf_heapRX : wfMapper mapperOne heapRX.
Proof.
  intros k l. rewrite mapperOne_map. intros [_ <-]%lookup_singleton_Some.
  apply (bool_decide_unpack _). vm_compute. exact I.
Qed.

Lemma mapperX_wf : wfMapper mapperX heapRX.
Proof.
  intros k l. rewrite mapperX_map. intros [_ <-]%lookup_singleton_Some.
  apply (bool_decide_unpack _). vm_compute. exact I.
Qed.

Lemma copy_of_mapperOne :
  wfMapper mapperOne heapOne ∧
  dom (GetAllMappings mapperOne heapOne).1 = dom (setToResources mapperOne) ∧
  permitted (GetAllMappings mapperOne heapOne).2 (GetAllMappings mapperOne heapOne).1 "a"
  = membersOf "a" mapperOne heapOne.
Proof.
  split; [exact mapperOne_wf|].
  destruct (GetAllMappings_copy mapperOne heapOne mapperOne_wf) as (Hdom & Hmem & _).
  split; [exact Hdom|exact (Hmem "a")].
Defined.

Lemma merge_of_mapperOne_and_mapperX :
  wfMapper mapperOne heapRX ∧ wfMapper mapperX heapRX ∧
  resourceType mapperOne = resourceType mapperX ∧
  membersOf "a" (Merge mapperOne mapperX heapRX).1 (Merge mapperOne mapperX heapRX).2
  = membersOf "a" mapperOne heapRX ∪ membersOf "a" mapperX heapRX.
Proof.
  split; [exact mapperOne_wf_heapRX|]. split; [exact mapperX_wf|]. split; [reflexivity|].
  destruct (Merge_members mapperOne mapperX heapRX mapperOne_wf_heapRX mapperX_wf)
    as [_ Hsame].
  destruct (Hsame eq_refl) as (_ & _ & _ & Hmem & _).
  apply Hmem. discriminate.
Defined.

(** In the merge of [mapperOne] and [mapperX] the cluster set [a] holds
    [r] and [x]. *)
Lemma merge_of_mapperOne_and_mapperX_value :
  membersOf "a" mapperOne heapRX ∪ membersOf "a" mapperX heapRX = {[ "r"; "x" ]}.
Proof. apply set_eq. intros n. vm_compute. tauto. Qed.

(** X19: [RemoveClusterSet] of a non-empty name leaves that cluster set
    without members and every other cluster set as it was, so a resource
    that was a member of that cluster set only is then found in no cluster
    set; it has the effect of [UpdateClusterSetResources] with an empty
    set. *)
Theorem RemoveClusterSet_forgets (clusterSetName : string) (m : ClusterSetResourceMapper)
    (h : Heap) :
  clusterSetName ≠ "" →
  membersOf clusterSetName (RemoveClusterSet clusterSetName m) h = ∅ ∧
  (∀ other, other ≠ clusterSetName →
     membersOf other (RemoveClusterSet clusterSetName m) h = membersOf other m h) ∧
  (∀ resourceName,
     (∀ other, memberOf resourceName other m h → other = clusterSetName) →
     GetClusterSetForResource resourceName (RemoveClusterSet clusterSetName m) h = "") ∧
  (∀ resources, deref h resources = ∅ →
     UpdateClusterSetResources clusterSetName resources m h
     = RemoveClusterSet clusterSetName m).
Proof.
  intros Hname. unfold RemoveClusterSet, UpdateClusterSetResources, membersOf.
  rewrite (proj2 (String.eqb_neq _ _) Hname). cbn [setToResources].
  split; [by rewrite lookup_delete_eq|]. split; [intros other Hne; by rewrite lookup_delete_ne|].
  split.
  - intros resourceName Honly. unfold GetClusterSetForResource. cbn [setToResources].
    destruct (list_find _ (map_to_list (delete clusterSetName (setToResources m))))
      as [[i [k l]]|] eqn:Hfind; [|done].
    apply list_find_Some in Hfind as (Hi & Hin & _).
    apply list_elem_of_lookup_2, elem_of_map_to_list, lookup_delete_Some in Hi as [Hne Hk].
    exfalso. apply Hne. symmetry. apply Honly. by exists l.
  - intros resources Hempty. unfold sets_Len. by rewrite Hempty, size_empty.
Qed.

Lemma remove_a_from_mapperOne :
  "a" ≠ "" ∧
  membersOf "a" (RemoveClusterSet "a" mapperOne) heapOne = ∅ ∧
  GetClusterSetForResource "r" (RemoveClusterSet "a" mapperOne) heapOne = "".
Proof.
  assert (Ha : "a" ≠ "") by discriminate.
  split; [exact Ha|].
  destruct (RemoveClusterSet_forgets "a" mapperOne heapOne Ha) as (Hnone & _ & Hfind & _).
  split; [exact Hnone|].
  apply Hfind. intros other (l & Hl & _). rewrite mapperOne_map in Hl.
  apply lookup_singleton_Some in Hl as [<- _]. reflexivity.
Defined.

(** X20: [MoveResourceToClusterSet] of a non-empty resource name to a
    non-empty cluster-set name changes the membership of that resource
    only: every other resource is a member of exactly the cluster sets it
    was a member of, also when set objects are shared between cluster-set
    names and when emptied cluster sets are dropped. *)
Theorem MoveResourceToClusterSet_keeps_others resourceName newClusterSetName m h :
  wfMapper m h →
  resourceName ≠ "" → newClusterSetName ≠ "" →
  ∀ other clusterSetName,
    other ≠ resourceName →
    memberOf other clusterSetName
      (MoveResourceToClusterSet resourceName newClusterSetName m h).1
      (MoveResourceToClusterSet resourceName newClusterSetName m h).2
    ↔ memberOf other clusterSetName m h.
Proof.
  intros Hwf Hr Hs x k Hx. unfold MoveResourceToClusterSet, moveResource.
  rewrite (proj2 (String.eqb_neq _ _) Hr), (proj2 (String.eqb_neq _ _) Hs). cbn [orb].
  set (keys := (map_to_list (setToResources m)).*1).
  pose proof (removeLoop_mono resourceName (Some newClusterSetName) keys
                (setToResources m) h) as (Hsub & Hskip & Hder & Hdom).
  pose proof (removeLoop_keeps resourceName (Some newClusterSetName) keys
                (setToResources m) h) as Hkeep.
  destruct (removeLoop resourceName (Some newClusterSetName) keys (setToResources m) h)
    as [s h1]. cbn [fst snd] in *.
  specialize (Hskip newClusterSetName eq_refl).
  assert (Hmid : (∃ l, s !! k = Some l ∧ x ∈ deref h1 l) ↔ memberOf x k m h).
  { split.
    - intros (l & Hl & Hin). exists l. split; [by apply Hsub|by apply Hder].
    - intros (l & Hl & Hin). exists l. by apply (Hkeep k l x). }
  rewrite <- Hmid. unfold memberOf.
  assert (Hins : ∀ l0 l hh, x ∈ deref (sets_Insert l0 resourceName hh) l ↔ x ∈ deref hh l).
  { intros l0 l hh. rewrite deref_sets_Insert. case_decide as Heq; [|done]. subst.
    rewrite elem_of_union, elem_of_singleton. tauto. }
  destruct (s !! newClusterSetName) as [l0|] eqn:Hnew; unfold sets_New; simpl.
  - split; intros (l & Hl & Hin); exists l; (split; [done|]); by apply Hins in Hin || by apply Hins.
  - split.
    + intros (l & Hl & Hin). apply Hins in Hin.
      destruct (decide (k = newClusterSetName)) as [->|Hne].
      * rewrite lookup_insert_eq in Hl. injection Hl as <-.
        rewrite deref_alloc in Hin. by apply not_elem_of_empty in Hin.
      * rewrite lookup_insert_ne in Hl by done. exists l. split; [done|].
        assert (Hl1 : l ∈ dom h1) by (apply Hdom; eapply Hwf; by apply Hsub).
        by rewrite (deref_extends h1 _ l (alloc_extends h1 ∅) Hl1) in Hin.
    + intros (l & Hl & Hin). exists l.
      assert (Hne : k ≠ newClusterSetName) by (intros ->; congruence).
      rewrite lookup_insert_ne by done. split; [done|]. apply Hins.
      assert (Hl1 : l ∈ dom h1) by (apply Hdom; eapply Hwf; by apply Hsub).
      by rewrite (deref_extends h1 _ l (alloc_extends h1 ∅) Hl1).
Qed.

Lemma move_x_keeps_r_in_mapperOne :
  wfMapper mapperOne heapOne ∧ "x" ≠ "" ∧ "b" ≠ "" ∧
  (memberOf "r" "a" (MoveResourceToClusterSet "x" "b" mapperOne heapOne).1
                    (MoveResourceToClusterSet "x" "b" mapperOne heapOne).2
   ↔ memberOf "r" "a" mapperOne heapOne).
Proof.
  assert (Hx : "x" ≠ "") by discriminate.
  assert (Hb : "b" ≠ "") by discriminate.
  assert (Hr : "r" ≠ "x") by discriminate.
  split; [exact mapperOne_wf|]. split; [exact Hx|]. split; [exact Hb|].
  exact (MoveResourceToClusterSet_keeps_others "x" "b" mapperOne heapOne
           mapperOne_wf Hx Hb "r" "a" Hr).
Defined.
